(** * Vans delivery-data dashboard (app.py): a shallow embedding

    The dashboard is one Python script: it loads every sheet of a workbook
    into one pandas table, filters it from the sidebar, shows four metrics,
    builds five charts and exports a PDF snapshot.  The script is modelled
    stage by stage as pure functions, in the order of the script.

    Conventions of the model.
    - A Python [str] is a [string] whose characters are code points below
      256; [str.strip()] removes the code points Python calls whitespace
      in that range.
    - A table cell is missing (NaN/None, [None] here), a string or a number.
      Numbers are exact rationals: the rounding error of binary floating
      point is not modelled, NaN as the result of a computation is.
    - A Python exception is a value of [pyerr]; code that may raise returns
      a [result]. *)

From Stdlib Require Import List Bool Arith ZArith QArith Qround Lia.
From Stdlib Require Import Strings.String Strings.Ascii Numbers.DecimalString.
From Stdlib Require Import Sorting.Permutation.
Import ListNotations.

Close Scope Q_scope.
Open Scope string_scope.
Open Scope list_scope.

(** ** Exceptions *)

Inductive pyerr : Type :=
| KeyError (key : string)
| TypeError
| ValueError
| InvalidIndexError.

Inductive result (A : Type) : Type :=
| Ok (a : A)
| Raise (e : pyerr).

Arguments Ok {A} a.
Arguments Raise {A} e.

Definition bind {A B : Type} (c : result A) (k : A -> result B) : result B :=
  match c with
  | Ok a => k a
  | Raise e => Raise e
  end.

Notation "x <- c ;; k" := (bind c (fun x => k))
  (at level 61, c at next level, right associativity).
Notation "' p <- c ;; k" := (bind c (fun p => k))
  (at level 61, p pattern, c at next level, right associativity).

(** A loop that collects one result per item and stops at the first
    exception. *)
Fixpoint mapM {A B : Type} (f : A -> result B) (l : list A)
  : result (list B) :=
  match l with
  | [] => Ok []
  | x :: l' =>
      y <- f x ;;
      ys <- mapM f l' ;;
      Ok (y :: ys)
  end.

(** ** Python strings *)

Definition is_space (c : ascii) : bool :=
  let n := nat_of_ascii c in
  ((9 <=? n) && (n <=? 13) || (28 <=? n) && (n <=? 32)
   || (n =? 133) || (n =? 160))%nat.

Fixpoint lstrip (s : string) : string :=
  match s with
  | EmptyString => EmptyString
  | String c s' => if is_space c then lstrip s' else s
  end.

Fixpoint rstrip (s : string) : string :=
  match s with
  | EmptyString => EmptyString
  | String c s' =>
      match rstrip s' with
      | EmptyString => if is_space c then EmptyString else String c EmptyString
      | t => String c t
      end
  end.

(** [s.strip()] *)
Definition strip (s : string) : string := rstrip (lstrip s).

(** [sep.join(parts)] *)
Fixpoint join (sep : string) (parts : list string) : string :=
  match parts with
  | [] => ""
  | [p] => p
  | p :: rest => p ++ sep ++ join sep rest
  end.

(** [s.replace(old, new)] for a non-empty [old]: every occurrence, left to
    right, without overlap.  [skip] counts the characters of a matched
    occurrence still to be dropped. *)
Fixpoint replace_from (skip : nat) (old new s : string) : string :=
  match s with
  | EmptyString => EmptyString
  | String c s' =>
      match skip with
      | S k => replace_from k old new s'
      | O =>
          if prefix old s
          then new ++ replace_from (String.length old - 1) old new s'
          else String c (replace_from 0 old new s')
      end
  end.

Definition replace (old new s : string) : string := replace_from 0 old new s.

(** [sub in s] *)
Fixpoint contains (sub s : string) : bool :=
  prefix sub s ||
  match s with
  | EmptyString => false
  | String _ s' => contains sub s'
  end.

Definition string_of_Z (z : Z) : string := NilZero.string_of_int (Z.to_int z).

(** ** Header labels *)

(** The objects a header cell can hold: text, an integer, or the float NaN
    that pandas puts in an empty cell. *)
Inductive pyobj : Type :=
| PStr (s : string)
| PInt (z : Z)
| PNaN.

(** [str(x)] *)
Definition py_str (x : pyobj) : string :=
  match x with
  | PStr s => s
  | PInt z => string_of_Z z
  | PNaN => "nan"
  end.

(** [repr(x)]; exact for text without quotes, backslashes or control
    characters. *)
Definition py_repr (x : pyobj) : string :=
  match x with
  | PStr s => "'" ++ s ++ "'"
  | PInt z => string_of_Z z
  | PNaN => "nan"
  end.

(** A column label: a tuple (multi-row header), a list, or a single object. *)
Inductive label : Type :=
| LTuple (parts : list pyobj)
| LList (parts : list pyobj)
| LObj (x : pyobj).

(** [str(col)] of a whole label. *)
Definition label_str (col : label) : string :=
  match col with
  | LTuple [p] => "(" ++ py_repr p ++ ",)"
  | LTuple parts => "(" ++ join ", " (map py_repr parts) ++ ")"
  | LList parts => "[" ++ join ", " (map py_repr parts) ++ "]"
  | LObj x => py_str x
  end.

(** ** Column normalizer (app.py, [_flatten_columns]) *)

(** [[str(x) for x in col if str(x) != "nan"]] *)
Fixpoint kept_parts (col : list pyobj) : list string :=
  match col with
  | [] => []
  | x :: col' =>
      if py_str x =? "nan" then kept_parts col'
      else py_str x :: kept_parts col'
  end.

Definition flatten_label (col : label) : string :=
  match col with
  | LTuple parts | LList parts => strip (join " - " (kept_parts parts))
  | LObj x => strip (py_str x)
  end.

Fixpoint _flatten_columns (columns : list label) : list string :=
  match columns with
  | [] => []
  | col :: rest => flatten_label col :: _flatten_columns rest
  end.

(** ** Tables *)

Inductive scalar : Type :=
| SStr (s : string)
| SNum (q : Q).

(** A cell; [None] is the missing value (NaN / None). *)
Definition cell : Type := option scalar.

Record row : Type := { row_index : nat; row_cells : list cell }.

(** A pandas DataFrame: column labels of type [L] and labelled rows. *)
Record Frame (L : Type) : Type := { columns : list L; rows : list row }.

Arguments columns {L} f.
Arguments rows {L} f.

Definition DataFrame : Type := Frame string.

(** [c in df.columns] *)
Definition has_column (df : DataFrame) (c : string) : bool :=
  existsb (String.eqb c) (columns df).

Fixpoint position (c : string) (cols : list string) : option nat :=
  match cols with
  | [] => None
  | c' :: cols' =>
      if c =? c' then Some O else option_map S (position c cols')
  end.

(** The cell of row [r] under the column named [c].  Column names are
    taken to be distinct: the first column of that name is read, where
    pandas would hand back a frame of all of them. *)
Definition cell_of (cols : list string) (r : row) (c : string) : cell :=
  match position c cols with
  | Some i => nth i (row_cells r) None
  | None => None
  end.

(** [df[c]], the values of the column, row by row. *)
Definition column (df : DataFrame) (c : string) : list cell :=
  map (fun r => cell_of (columns df) r c) (rows df).

(** [df[mask]] with the mask given row by row. *)
Definition select_rows (df : DataFrame) (mask : row -> bool) : DataFrame :=
  {| columns := columns df; rows := filter mask (rows df) |}.

(** [==] on cell values: text and numbers never compare equal. *)
Definition scalar_eqb (a b : scalar) : bool :=
  match a, b with
  | SStr x, SStr y => x =? y
  | SNum x, SNum y => Qeq_bool x y
  | _, _ => false
  end.

(** [series.dropna()] *)
Fixpoint dropna (s : list cell) : list scalar :=
  match s with
  | [] => []
  | Some v :: s' => v :: dropna s'
  | None :: s' => dropna s'
  end.

(** [series.unique()]: the distinct values in order of first appearance. *)
Fixpoint unique (l : list scalar) : list scalar :=
  match l with
  | [] => []
  | x :: l' => x :: filter (fun y => negb (scalar_eqb x y)) (unique l')
  end.

Definition is_str (v : scalar) : bool :=
  match v with SStr _ => true | SNum _ => false end.

Definition is_num (v : scalar) : bool := negb (is_str v).

Definition scalar_leb (a b : scalar) : bool :=
  match a, b with
  | SStr x, SStr y => String.leb x y
  | SNum x, SNum y => Qle_bool x y
  | SNum _, SStr _ => true
  | SStr _, SNum _ => false
  end.

Fixpoint insert_sorted (x : scalar) (l : list scalar) : list scalar :=
  match l with
  | [] => [x]
  | y :: l' => if scalar_leb x y then x :: l else y :: insert_sorted x l'
  end.

Fixpoint insertion_sort (l : list scalar) : list scalar :=
  match l with
  | [] => []
  | x :: l' => insert_sorted x (insertion_sort l')
  end.

(** [sorted(l)]: comparing text with a number raises [TypeError], which a
    sort of a list holding both cannot avoid. *)
Definition py_sorted (l : list scalar) : result (list scalar) :=
  if forallb is_str l || forallb is_num l
  then Ok (insertion_sort l)
  else Raise TypeError.

(** [series.isin(sel)], for one cell; a missing value is in no selection of
    non-missing values. *)
Definition isin (x : cell) (sel : list scalar) : bool :=
  match x with
  | Some v => existsb (scalar_eqb v) sel
  | None => false
  end.

(** A numeric reading of a cell; arithmetic on text raises. *)
Definition numeric (x : cell) : result (option Q) :=
  match x with
  | None => Ok None
  | Some (SNum q) => Ok (Some q)
  | Some (SStr _) => Raise TypeError
  end.

Definition numeric_series (s : list cell) : result (list (option Q)) :=
  mapM numeric s.

Fixpoint present (s : list (option Q)) : list Q :=
  match s with
  | [] => []
  | Some q :: s' => q :: present s'
  | None :: s' => present s'
  end.

Definition Qmin_b (a b : Q) : Q := if Qle_bool a b then a else b.
Definition Qmax_b (a b : Q) : Q := if Qle_bool a b then b else a.

(** [series.min()] and [series.max()]: missing values are skipped, and the
    result is NaN ([None]) when nothing is left. *)
Definition series_min (s : list (option Q)) : option Q :=
  match present s with
  | [] => None
  | q :: qs => Some (fold_left Qmin_b qs q)
  end.

Definition series_max (s : list (option Q)) : option Q :=
  match present s with
  | [] => None
  | q :: qs => Some (fold_left Qmax_b qs q)
  end.

(** [int(x)]: truncation toward zero; [int(nan)] raises [ValueError]. *)
Definition py_int (x : option Q) : result Z :=
  match x with
  | None => Raise ValueError
  | Some q => Ok (Z.quot (Qnum q) (Zpos (Qden q)))
  end.

(** [series.between(lo, hi)], for one cell: both ends inclusive, false on
    a missing value. *)
Definition between (lo hi : Z) (x : option Q) : bool :=
  match x with
  | None => false
  | Some q => Qle_bool (inject_Z lo) q && Qle_bool q (inject_Z hi)
  end.

(** ** Dataset loader (app.py, [load_excel_any]) *)

(** A sheet as [pd.read_excel] sees it: what the call returns with a
    three-row header and what it returns with a one-row header. *)
Record Sheet : Type := {
  read_header3 : result (Frame label);
  read_header1 : result (Frame label)
}.

(** An opened workbook; the file format has at least one sheet. *)
Record Workbook : Type := { sheet1 : Sheet; sheets_rest : list Sheet }.

Definition sheet_names (xls : Workbook) : list Sheet :=
  sheet1 xls :: sheets_rest xls.

Definition set_columns {L M : Type} (df : Frame L) (cols : list M) : Frame M :=
  {| columns := cols; rows := rows df |}.

(** The body of the loop over the sheets, up to [frames.append(df)]. *)
Definition load_sheet (sheet : Sheet) : result DataFrame :=
  df <- match read_header3 sheet with
        | Ok df => Ok (set_columns df (_flatten_columns (columns df)))
        | Raise _ =>
            df <- read_header1 sheet ;;
            Ok (set_columns df (_flatten_columns (columns df)))
        end ;;
  Ok (set_columns df
        (map (fun c => strip (replace "Unnamed: " "" c)) (columns df))).

Definition load_sheets (sheets : list Sheet) : result (list DataFrame) :=
  mapM load_sheet sheets.

Fixpoint reindex_from (k : nat) (rs : list row) : list row :=
  match rs with
  | [] => []
  | r :: rs' =>
      {| row_index := k; row_cells := row_cells r |} :: reindex_from (S k) rs'
  end.

Fixpoint list_eqb (a b : list string) : bool :=
  match a, b with
  | [], [] => true
  | x :: a', y :: b' => (x =? y) && list_eqb a' b'
  | _, _ => false
  end.

Fixpoint has_duplicates (l : list string) : bool :=
  match l with
  | [] => false
  | x :: l' => existsb (String.eqb x) l' || has_duplicates l'
  end.

(** The union of the column lists in order of first appearance. *)
Fixpoint union_columns (acc : list string) (frames : list DataFrame)
  : list string :=
  match frames with
  | [] => acc
  | f :: frames' =>
      union_columns
        (acc ++ filter (fun c => negb (existsb (String.eqb c) acc)) (columns f))
        frames'
  end.

Definition project_rows (cols : list string) (f : DataFrame) : list row :=
  map (fun r => {| row_index := row_index r;
                   row_cells := map (cell_of (columns f) r) cols |})
      (rows f).

(** [pd.concat(frames, ignore_index=True)].  Frames with the same columns
    are stacked as they are; otherwise every frame is re-indexed to the
    union of the columns, which pandas refuses on duplicated labels. *)
Definition concat_frames (frames : list DataFrame) : result DataFrame :=
  match frames with
  | [] => Raise ValueError
  | f :: _ =>
      if forallb (fun g => list_eqb (columns g) (columns f)) frames
      then Ok {| columns := columns f;
                 rows := reindex_from 0 (List.concat (map rows frames)) |}
      else if existsb (fun g => has_duplicates (columns g)) frames
      then Raise InvalidIndexError
      else
        let cols := union_columns [] frames in
        Ok {| columns := cols;
              rows := reindex_from 0
                        (List.concat (map (project_rows cols) frames)) |}
  end.

Definition load_excel_any (xls : Workbook) : result DataFrame :=
  frames <- load_sheets (sheet_names xls) ;;
  concat_frames frames.

(** ** Global filters (app.py, the sidebar block) *)

(** The user's side of the two widgets: what [st.multiselect] returns for a
    label and its options (which are also its default), and what
    [st.slider] returns for its bounds (which are also its default). *)
Record FilterSelection : Type := {
  multiselect : string -> list scalar -> list scalar;
  slider : Z -> Z -> Z * Z
}.

(** Nothing touched: every widget returns its default. *)
Definition default_selection : FilterSelection :=
  {| multiselect := fun _ vals => vals;
     slider := fun min_age max_age => (min_age, max_age) |}.

Definition categorical_columns : list string :=
  ["Company"; "Employment Status"; "Areas Covered"].

Definition age_column : string := "Age (Years)".

(** [sorted([v for v in df_all[c].dropna().unique()])] *)
Definition filter_options (df_all : DataFrame) (c : string)
  : result (list scalar) :=
  py_sorted (unique (dropna (column df_all c))).

Fixpoint categorical_loop (ui : FilterSelection) (df_all : DataFrame)
    (cs : list string) (df_view : DataFrame) : result DataFrame :=
  match cs with
  | [] => Ok df_view
  | c :: cs' =>
      if has_column df_all c then
        vals <- filter_options df_all c ;;
        let sel := multiselect ui (c ++ " filter") vals in
        categorical_loop ui df_all cs'
          (select_rows df_view
             (fun r => isin (cell_of (columns df_view) r c) sel))
      else categorical_loop ui df_all cs' df_view
  end.

(** [int(df_all[age].min()), int(df_all[age].max())].  A text cell in the
    age column is taken to raise here, as its comparison with the integer
    bounds of the range does. *)
Definition age_bounds (df_all : DataFrame) : result (Z * Z) :=
  ages <- numeric_series (column df_all age_column) ;;
  min_age <- py_int (series_min ages) ;;
  max_age <- py_int (series_max ages) ;;
  Ok (min_age, max_age).

(** The age of a row as a number; a text cell, which [age_bounds] has
    already refused, reads as missing. *)
Definition age_of (df : DataFrame) (r : row) : option Q :=
  match cell_of (columns df) r age_column with
  | Some (SNum q) => Some q
  | _ => None
  end.

Definition filter_engine (ui : FilterSelection) (df_all : DataFrame)
  : result DataFrame :=
  let df_view := df_all in
  df_view <- categorical_loop ui df_all categorical_columns df_view ;;
  if has_column df_all age_column then
    '(min_age, max_age) <- age_bounds df_all ;;
    let age_range := slider ui min_age max_age in
    Ok (select_rows df_view
          (fun r => between (fst age_range) (snd age_range) (age_of df_view r)))
  else Ok df_view.

(** ** Key metrics (app.py, the KPI block) *)

Definition Qsum (l : list Q) : Q := fold_left Qplus l 0%Q.

(** [series.mean()] of a numeric series: missing values are skipped; NaN
    when nothing is left. *)
Definition mean (s : list (option Q)) : option Q :=
  match present s with
  | [] => None
  | qs => Some (Qsum qs / inject_Z (Z.of_nat (List.length qs)))%Q
  end.

(** [df[c].mean()]; pandas raises on a column holding text. *)
Definition series_mean (s : list cell) : result (option Q) :=
  qs <- numeric_series s ;;
  Ok (mean qs).

(** Rounding to the nearest integer, ties to even. *)
Definition round_half_even (q : Q) : Z :=
  let n := Qnum q in
  let d := Zpos (Qden q) in
  let fl := (n / d)%Z in
  match (2 * (n mod d) ?= d)%Z with
  | Lt => fl
  | Gt => (fl + 1)%Z
  | Eq => if Z.even fl then fl else (fl + 1)%Z
  end.

(** [round(x, 1)]; negative zero is not told apart from zero. *)
Definition round1 (x : option Q) : option Q :=
  option_map (fun q => Qmake (round_half_even (q * 10)%Q) 10) x.

Definition Qneg_b (q : Q) : bool := (Qnum q <? 0)%Z.

(** [f"{x:.1f}"]; it is also [str(x)] for a float with one decimal. *)
Definition fixed1 (x : option Q) : string :=
  match x with
  | None => "nan"
  | Some q =>
      let t := Z.abs (round_half_even (q * 10)%Q) in
      (if Qneg_b q then "-" else "")
      ++ string_of_Z (t / 10)%Z ++ "." ++ string_of_Z (t mod 10)%Z
  end.

(** Digits grouped by three from the right, as the [,] format option does.
    [digits] is least significant first. *)
Fixpoint group3 (digits : list ascii) (k : nat) (acc : string) : string :=
  match digits with
  | [] => acc
  | d :: rest =>
      match k with
      | O => group3 rest 2 (String d ("," ++ acc))
      | S k' => group3 rest k' (String d acc)
      end
  end.

Definition thousands (z : Z) : string :=
  match rev (list_ascii_of_string (string_of_Z z)) with
  | [] => ""
  | d :: rest => group3 rest 2 (String d "")
  end.

(** [f"{x:,.0f}"] *)
Definition fixed0_grouped (x : option Q) : string :=
  match x with
  | None => "nan"
  | Some q =>
      (if Qneg_b q then "-" else "") ++ thousands (Z.abs (round_half_even q))
  end.

(** [series.eq(v)]: a missing value equals nothing. *)
Definition series_eq (s : list cell) (v : scalar) : list bool :=
  map (fun x => match x with
                | Some w => scalar_eqb w v
                | None => false
                end) s.

(** [series.mean()] of a boolean series. *)
Definition bool_mean (bs : list bool) : option Q :=
  match bs with
  | [] => None
  | _ => Some (inject_Z (Z.of_nat (List.length (filter id bs)))
               / inject_Z (Z.of_nat (List.length bs)))%Q
  end.

Definition occurrences (v : scalar) (l : list scalar) : nat :=
  List.length (filter (scalar_eqb v) l).

(** [series.mode()]: the most frequent non-missing values, sorted when they
    can be compared. *)
Definition series_mode (s : list cell) : list scalar :=
  let vals := dropna s in
  let best := fold_right Nat.max 0 (map (fun v => occurrences v vals) vals) in
  let modes := filter (fun v => occurrences v vals =? best)%nat (unique vals) in
  match py_sorted modes with
  | Ok sorted => sorted
  | Raise _ => modes
  end.

(** [series[0]] on the fresh 0..n-1 index of a result. *)
Definition item0 {A : Type} (l : list A) : result A :=
  match l with
  | [] => Raise (KeyError "0")
  | x :: _ => Ok x
  end.

(** [series.empty] *)
Definition series_empty {A : Type} (l : list A) : bool :=
  match l with [] => true | _ => false end.

Definition deliveries_column : string := "Deliveries per day".
Definition insurance_column : string := "Medical Insurance".
Definition income_column : string := "Net Income (Gross - All Expenses) (EGP)".
Definition employment_column : string := "Employment Status".
Definition company_column : string := "Company".

(** [round(df_view["Deliveries per day"].mean(), 1)] *)
Definition avg_deliveries (df_view : DataFrame) : result (option Q) :=
  avg <- series_mean (column df_view deliveries_column) ;;
  Ok (round1 avg).

(** [df_view["Medical Insurance"].eq("Yes").mean() * 100] *)
Definition insurance_pct (df_view : DataFrame) : option Q :=
  option_map (fun m => m * 100)%Q
    (bool_mean (series_eq (column df_view insurance_column) (SStr "Yes"))).

Definition avg_net_income (df_view : DataFrame) : result (option Q) :=
  series_mean (column df_view income_column).

(** [mode()[0] if not series.empty else "N/A"] *)
Definition most_common_employment (df_view : DataFrame) : result scalar :=
  let series := column df_view employment_column in
  if negb (series_empty series) then item0 (series_mode series)
  else Ok (SStr "N/A").

Definition float_cell (x : option Q) : cell := option_map SNum x.

(** What a metric card shows for a value: [str(value)].  Exact for text,
    NaN and numbers with one decimal. *)
Definition display (v : cell) : string :=
  match v with
  | None => "nan"
  | Some (SStr s) => s
  | Some (SNum q) => fixed1 (Some q)
  end.

(** The calls [col.metric(label, value)], in the order of the script. *)
Definition metrics_panel (df_view : DataFrame) : result (list (string * cell)) :=
  m1 <- (if has_column df_view deliveries_column then
           avg <- avg_deliveries df_view ;;
           Ok [("Avg Deliveries/day", float_cell avg)]
         else Ok []) ;;
  let m2 := if has_column df_view insurance_column then
              let pct := insurance_pct df_view in
              [("% with Medical Insurance", Some (SStr (fixed1 pct ++ "%")))]
            else [] in
  m3 <- (if has_column df_view income_column then
           avg <- avg_net_income df_view ;;
           Ok [("Avg Net Income", Some (SStr (fixed0_grouped avg ++ " EGP")))]
         else Ok []) ;;
  m4 <- (if has_column df_view employment_column then
           mode <- most_common_employment df_view ;;
           Ok [("Most Common Employment", Some mode)]
         else Ok []) ;;
  Ok (m1 ++ m2 ++ m3 ++ m4).

(** ** Visual analytics (app.py, the chart block) *)

(** A plotly figure, kept as the call that makes it. *)
Inductive figure : Type :=
| px_pie (data : DataFrame) (names title : string)
| px_bar (data : DataFrame) (x y : string) (color : option string)
         (barmode title : string)
| px_histogram (data : DataFrame) (x : string) (nbins : nat) (title : string)
| px_box (data : DataFrame) (x y title : string).

Definition expense_columns : list string :=
  ["Fuel Expenses (EGP)"; "Maintenance Costs (EGP)"; "Financing/Lease (EGP)";
   "Other Expenses (licenses, permits, fines, etc....)"].

(** [df.groupby(key)[cols]]: selecting a column that is not there raises
    [KeyError].  The message names the missing columns; pandas lists them in
    the order of a set, here they come in the order of [cols]. *)
Definition groupby_select (df : DataFrame) (cols : list string) : result unit :=
  match filter (fun c => negb (has_column df c)) cols with
  | [] => Ok tt
  | missing =>
      Raise (KeyError ("Columns not found: "
                       ++ join ", " (map (fun c => ("'" ++ c ++ "'")%string) missing)))
  end.

(** [df.groupby(key)[cols].mean().reset_index()]: one row per non-missing
    key, keys in sorted order, the mean of every selected column. *)
Definition groupby_mean (df : DataFrame) (key : string) (cols : list string)
  : result DataFrame :=
  _ <- groupby_select df cols ;;
  let keys := insertion_sort (unique (dropna (column df key))) in
  means <- mapM (fun k =>
             let group :=
               filter (fun r => isin (cell_of (columns df) r key) [k]) (rows df) in
             ms <- mapM (fun c =>
                     m <- series_mean
                            (map (fun r => cell_of (columns df) r c) group) ;;
                     Ok (float_cell m)) cols ;;
             Ok {| row_index := O; row_cells := Some k :: ms |}) keys ;;
  Ok {| columns := key :: cols; rows := reindex_from 0 means |}.

(** [df.melt(id_vars=id_var, var_name=..., value_name=...)] *)
Definition melt (df : DataFrame) (id_var var_name value_name : string)
  : DataFrame :=
  let value_vars := filter (fun c => negb (c =? id_var)) (columns df) in
  {| columns := [id_var; var_name; value_name];
     rows := reindex_from 0
       (flat_map (fun c =>
          map (fun r => {| row_index := O;
                           row_cells := [cell_of (columns df) r id_var;
                                         Some (SStr c);
                                         cell_of (columns df) r c] |})
              (rows df)) value_vars) |}.

Definition chart : Type := (string * figure)%type.

Definition chart_builder (df_view : DataFrame) : result (list chart) :=
  let charts := [] in
  let charts :=
    if has_column df_view employment_column then
      charts ++ [("pie.png",
                  px_pie df_view employment_column "Employment Status Share")]
    else charts in
  let charts :=
    if has_column df_view company_column
       && has_column df_view deliveries_column then
      charts ++ [("deliveries.png",
                  px_bar df_view company_column deliveries_column None "group"
                         "Deliveries per Day by Company")]
    else charts in
  let charts :=
    if has_column df_view age_column then
      charts ++ [("age.png",
                  px_histogram df_view age_column 10 "Age Distribution")]
    else charts in
  let charts :=
    if has_column df_view income_column
       && has_column df_view employment_column then
      charts ++ [("income.png",
                  px_box df_view employment_column income_column
                         "Net Income by Employment Status")]
    else charts in
  if has_column df_view "Fuel Expenses (EGP)"
     && has_column df_view company_column then
    df_exp <- groupby_mean df_view company_column expense_columns ;;
    let df_exp := melt df_exp company_column "Expense Type" "Avg Expense" in
    Ok (charts ++ [("expenses.png",
                    px_bar df_exp company_column "Avg Expense"
                           (Some "Expense Type") "stack"
                           "Average Expenses by Company")])
  else Ok charts.

(** ** PDF export (app.py, the export block) *)

Inductive flowable : Type :=
| Paragraph (text style : string)
| Spacer (width height : Z)
| Image (path : string) (width height : Z).

(** The three metric lines of the export. *)
Definition pdf_kpi_lines (df_view : DataFrame) : result (list flowable) :=
  l1 <- (if has_column df_view deliveries_column then
           avg <- avg_deliveries df_view ;;
           Ok [Paragraph ("Avg Deliveries/day: " ++ fixed1 avg) "Normal"]
         else Ok []) ;;
  let l2 := if has_column df_view insurance_column then
              let pct := insurance_pct df_view in
              [Paragraph ("% with Medical Insurance: " ++ fixed1 pct ++ "%")
                         "Normal"]
            else [] in
  l3 <- (if has_column df_view income_column then
           avg <- avg_net_income df_view ;;
           Ok [Paragraph ("Avg Net Income: " ++ fixed0_grouped avg ++ " EGP")
                         "Normal"]
         else Ok []) ;;
  Ok (l1 ++ l2 ++ l3).

Section PdfExport.

(** The clock reading, already formatted; the temporary directory; and
    the rendering of a figure to a PNG file, which may fail. *)
Variable now : string.
Variable tmpdir : string.
Variable write_image : figure -> string -> result unit.

Fixpoint chart_images (charts : list chart) : result (list flowable) :=
  match charts with
  | [] => Ok []
  | (fname, fig) :: rest =>
      let outpath := (tmpdir ++ "/" ++ fname)%string in
      _ <- write_image fig outpath ;;
      more <- chart_images rest ;;
      Ok (Image outpath 400 250 :: Spacer 1 12 :: more)
  end.

(** The list [flow] handed to [doc.build]. *)
Definition export_flow (df_view : DataFrame) (charts : list chart)
  : result (list flowable) :=
  let head := [Paragraph "Vans Data Dashboard Snapshot" "Title";
               Paragraph now "Normal";
               Spacer 1 12] in
  kpis <- pdf_kpi_lines df_view ;;
  images <- chart_images charts ;;
  Ok (head ++ kpis ++ [Spacer 1 12] ++ images).

End PdfExport.

(** ** The page (app.py, top to bottom) *)

(** [df_all.columns = [str(c).strip() for c in df_all.columns]] *)
Definition clean_columns (df : DataFrame) : DataFrame :=
  set_columns df (map strip (columns df)).

Record Page : Type := {
  page_view : DataFrame;
  page_metrics : list (string * cell);
  page_charts : list chart
}.

(** One run of the script on an opened workbook, up to the export button. *)
Definition render (ui : FilterSelection) (xls : Workbook) : result Page :=
  df_all <- load_excel_any xls ;;
  let df_all := clean_columns df_all in
  df_view <- filter_engine ui df_all ;;
  metrics <- metrics_panel df_view ;;
  charts <- chart_builder df_view ;;
  Ok {| page_view := df_view; page_metrics := metrics; page_charts := charts |}.

(** ** The specification's wording, for comparison *)

Definition is_marker (x : pyobj) : bool := py_str x =? "nan".

(** "Discard every part whose string form is the missing-value marker and
    join the remaining parts' string forms with [" - "]; a non-composite
    label gives its trimmed string form." *)
Definition spec_normalize (col : label) : string :=
  match col with
  | LTuple parts | LList parts =>
      join " - " (map py_str (filter (fun x => negb (is_marker x)) parts))
  | LObj x => strip (py_str x)
  end.

(** The same with the joined text trimmed. *)
Definition spec_normalize_trimmed (col : label) : string :=
  match col with
  | LTuple parts | LList parts =>
      strip (join " - " (map py_str (filter (fun x => negb (is_marker x)) parts)))
  | LObj x => strip (py_str x)
  end.

(** The number of rows whose medical-insurance cell is the text "Yes". *)
Definition yes_rows (df : DataFrame) : nat :=
  List.length
    (filter (fun r => match cell_of (columns df) r insurance_column with
                      | Some (SStr s) => s =? "Yes"
                      | _ => false
                      end) (rows df)).

(** No two values of the list are equal. *)
Fixpoint all_distinct (l : list scalar) : bool :=
  match l with
  | [] => true
  | x :: l' => negb (existsb (scalar_eqb x) l') && all_distinct l'
  end.

(** The text of the paragraphs of a document, in order. *)
Fixpoint paragraphs (flow : list flowable) : list string :=
  match flow with
  | [] => []
  | Paragraph text _ :: rest => text :: paragraphs rest
  | _ :: rest => paragraphs rest
  end.

(** The line a metric card would make in the document. *)
Definition metric_line (m : string * cell) : string :=
  fst m ++ ": " ++ display (snd m).

(** ** The filters as one predicate on a row *)

(** A row passes the filter of a categorical column when the column is
    absent or the row's value is among the selected options. *)
Definition passes_categorical (ui : FilterSelection) (df_all : DataFrame)
    (r : row) (c : string) : bool :=
  if has_column df_all c then
    match filter_options df_all c with
    | Ok vals =>
        isin (cell_of (columns df_all) r c) (multiselect ui (c ++ " filter") vals)
    | Raise _ => false
    end
  else true.

(** A row passes the age filter when the column is absent or the row's age
    is inside the selected range, ends included. *)
Definition passes_age (ui : FilterSelection) (df_all : DataFrame) (r : row)
  : bool :=
  if has_column df_all age_column then
    match age_bounds df_all with
    | Ok (min_age, max_age) =>
        between (fst (slider ui min_age max_age))
                (snd (slider ui min_age max_age)) (age_of df_all r)
    | Raise _ => false
    end
  else true.

Definition keeps (ui : FilterSelection) (df_all : DataFrame) (r : row) : bool :=
  forallb (passes_categorical ui df_all r) categorical_columns
  && passes_age ui df_all r.

(** ** The charts by file name *)

Definition chart_files : list string :=
  ["pie.png"; "deliveries.png"; "age.png"; "income.png"; "expenses.png"].

(** The columns whose presence the script tests before it builds the chart
    saved under [fname]. *)
Definition chart_guard (df_view : DataFrame) (fname : string) : bool :=
  if fname =? "pie.png" then has_column df_view employment_column
  else if fname =? "deliveries.png" then
    has_column df_view company_column && has_column df_view deliveries_column
  else if fname =? "age.png" then has_column df_view age_column
  else if fname =? "income.png" then
    has_column df_view income_column && has_column df_view employment_column
  else if fname =? "expenses.png" then
    has_column df_view "Fuel Expenses (EGP)" && has_column df_view company_column
  else false.

(** ** The image block of the document *)

(** What a retained chart adds to the document: its picture at the fixed size
    and a spacer. *)
Definition chart_block (tmpdir : string) (c : chart) : list flowable :=
  [Image (tmpdir ++ "/" ++ fst c) 400 250; Spacer 1 12].

(** ** The metric cards by label *)

Definition metric_labels : list string :=
  ["Avg Deliveries/day"; "% with Medical Insurance"; "Avg Net Income";
   "Most Common Employment"].

(** The column a metric card is computed from. *)
Definition metric_source (card : string) : string :=
  if card =? "Avg Deliveries/day" then deliveries_column
  else if card =? "% with Medical Insurance" then insurance_column
  else if card =? "Avg Net Income" then income_column
  else employment_column.

(** ** The session (app.py, the password gate and the data source) *)

Inductive message : Type :=
| Info (body : string)
| Error (body : string).

(** Everything a run of the script reads from outside. *)
Record Session : Type := {
  (** [os.getenv("STREAMLIT_DASH_PASSWORD", "")] *)
  env_password : string;
  (** the login form: whether it was submitted, and the password typed *)
  form_ok : bool;
  form_pwd : string;
  (** the answer to "Data source:" *)
  choice : string;
  (** the workbook at [DEFAULT_PATH], if the file exists *)
  included : option Workbook;
  (** the uploaded workbook, if any *)
  uploaded : option Workbook;
  widgets : FilterSelection;
  (** the selected pivot preset *)
  preset : string;
  (** [pivot_ui] and the reading of its file: the HTML, or the text of the
      exception *)
  pivot_html : DataFrame -> string + string
}.

Inductive outcome : Type :=
| Stopped (shown : list message)
| Raised (e : pyerr)
| Shown (shown : list message) (page : Page).

(** [if PASSWORD: ... if not ok or pwd != PASSWORD: st.stop()] *)
Definition gate_closed (s : Session) : bool :=
  negb (env_password s =? "")
  && (negb (form_ok s) || negb (form_pwd s =? env_password s)).

(** The workbook of the chosen source, or what is shown before stopping. *)
Definition data_source (s : Session) : Workbook + list message :=
  if choice s =? "Use included file" then
    match included s with
    | Some xls => inl xls
    | None => inr [Error "Included file not found."]
    end
  else
    match uploaded s with
    | Some xls => inl xls
    | None => inr []
    end.

Definition script (s : Session) : outcome :=
  if gate_closed s then
    Stopped [Info "Enter the password to access the dashboard."]
  else
    match data_source s with
    | inr shown => Stopped shown
    | inl xls =>
        match render (widgets s) xls with
        | Raise e => Raised e
        | Ok page =>
            let note :=
              if preset s =? "None" then []
              else [Info ("Preset '" ++ preset s
                          ++ "' loaded. Adjust further in the pivot below.")] in
            let pivot :=
              match pivot_html s (page_view page) with
              | inl _ => []
              | inr e => [Error ("Pivot error: " ++ e)]
              end in
            Shown (note ++ pivot) page
        end
    end.

(** ** Order of a sorted list *)

(** The first item of the list is below every item of it. *)
Definition head_least (l : list scalar) : Prop :=
  match l with
  | [] => True
  | h :: _ => forall y, In y l -> scalar_leb h y = true
  end.

(** ** Sample data *)

Definition mkrow (i : nat) (cells : list cell) : row :=
  {| row_index := i; row_cells := cells |}.

Definition text (s : string) : cell := Some (SStr s).
Definition num (z : Z) : cell := Some (SNum (inject_Z z)).

(** A sheet with a two-row header and a sheet that only reads with a one-row
    header; both normalize to the same two columns. *)
Definition sheet_a : Sheet :=
  {| read_header3 :=
       Ok {| columns := [LTuple [PStr "Company"; PNaN];
                         LTuple [PStr "Unnamed: Age (Years)"; PNaN; PNaN]];
             rows := [mkrow 0 [text "Talabat"; num 31];
                      mkrow 1 [text "Bosta"; None]] |};
     read_header1 := Raise ValueError |}.

Definition sheet_b : Sheet :=
  {| read_header3 := Raise ValueError;
     read_header1 :=
       Ok {| columns := [LObj (PStr " Company"); LObj (PStr "Age (Years) ")];
             rows := [mkrow 0 [text "Talabat"; num 44]] |} |}.

Definition sample_workbook : Workbook :=
  {| sheet1 := sheet_a; sheets_rest := [sheet_b] |}.

Definition sample_frames : list DataFrame :=
  [ {| columns := ["Company"; "Age (Years)"];
       rows := [mkrow 0 [text "Talabat"; num 31]; mkrow 1 [text "Bosta"; None]] |};
    {| columns := ["Company"; "Age (Years)"];
       rows := [mkrow 0 [text "Talabat"; num 44]] |} ].

(** A small survey table: a row without a company, a row without an
    employment status and a row without an age. *)
Definition survey : DataFrame :=
  {| columns := ["Company"; "Employment Status"; "Age (Years)";
                 "Medical Insurance"];
     rows := [mkrow 0 [text "Talabat"; text "Full-time"; num 31; text "Yes"];
              mkrow 1 [None; text "Part-time"; num 25; text "Yes"];
              mkrow 2 [text "Bosta"; None; num 40; text "No"];
              mkrow 3 [text "Bosta"; text "Part-time"; None; text "Yes"];
              mkrow 4 [text "Bosta"; text "Part-time"; num 52; text "Yes"]] |}.

(** A view left empty by the filters, and views in which employment
    status is the only column. *)
Definition empty_view : DataFrame :=
  {| columns := columns survey; rows := [] |}.

Definition unanswered : DataFrame :=
  {| columns := ["Employment Status"]; rows := [mkrow 0 [None]; mkrow 1 [None]] |}.

Definition one_answer : DataFrame :=
  {| columns := ["Employment Status"]; rows := [mkrow 0 [text "Salaried"]] |}.

(** Four answers to the insurance question, three of them "Yes". *)
Definition insured : DataFrame :=
  {| columns := ["Medical Insurance"];
     rows := [mkrow 0 [text "Yes"]; mkrow 1 [text "No"];
              mkrow 2 [text "Yes"]; mkrow 3 [text "Yes"]] |}.

(** A view with the company and the fuel column but none of the other three
    expense columns. *)
Definition fuel_only : DataFrame :=
  {| columns := ["Company"; "Fuel Expenses (EGP)"];
     rows := [mkrow 0 [text "Talabat"; num 1200]] |}.

(** A sheet that reads with neither header, a sheet with plain one-row
    headers, and a sheet with a column of its own. *)
Definition sheet_broken : Sheet :=
  {| read_header3 := Raise ValueError; read_header1 := Raise TypeError |}.

Definition sheet_plain : Sheet :=
  {| read_header3 := Raise ValueError;
     read_header1 :=
       Ok {| columns := [LObj (PStr "Company"); LObj (PStr "Areas Covered")];
             rows := [mkrow 0 [text "Bosta"; text "Giza"]] |} |}.

Definition mixed_workbook : Workbook :=
  {| sheet1 := sheet_a; sheets_rest := [sheet_plain] |}.

Definition broken_workbook : Workbook :=
  {| sheet1 := sheet_a; sheets_rest := [sheet_broken; sheet_b] |}.

(** A complete table with whole-number ages, the same with a fractional
    oldest age, and a table whose age column is empty. *)
Definition complete_survey : DataFrame :=
  {| columns := ["Company"; "Employment Status"; "Age (Years)"];
     rows := [mkrow 0 [text "Talabat"; text "Full-time"; num 31];
              mkrow 1 [text "Bosta"; text "Part-time"; num 25];
              mkrow 2 [text "Bosta"; text "Part-time"; num 52]] |}.

Definition fractional_survey : DataFrame :=
  {| columns := ["Company"; "Age (Years)"];
     rows := [mkrow 0 [text "Talabat"; num 31];
              mkrow 1 [text "Bosta"; Some (SNum (81 # 2))]] |}.

Definition ageless_survey : DataFrame :=
  {| columns := ["Company"; "Age (Years)"];
     rows := [mkrow 0 [text "Talabat"; None]] |}.

(** The user deselects every company. *)
Definition no_company : FilterSelection :=
  {| multiselect := fun label vals =>
                      if label =? "Company filter" then [] else vals;
     slider := fun min_age max_age => (min_age, max_age) |}.

(** A view in which two employment statuses tie for the most answers. *)
Definition tied_view : DataFrame :=
  {| columns := ["Employment Status"];
     rows := [mkrow 0 [text "Part-time"]; mkrow 1 [text "Full-time"];
              mkrow 2 [text "Part-time"]; mkrow 3 [text "Full-time"];
              mkrow 4 [text "Casual"]] |}.

(** A view with the company and all four expense columns: two companies,
    three rows, one row without a company and one expense left blank. *)
Definition expense_view : DataFrame :=
  {| columns := ["Company"; "Fuel Expenses (EGP)"; "Maintenance Costs (EGP)";
                 "Financing/Lease (EGP)";
                 "Other Expenses (licenses, permits, fines, etc....)"];
     rows := [mkrow 0 [text "Talabat"; num 1200; num 300; None; num 50];
              mkrow 1 [text "Bosta"; num 900; num 100; num 2000; num 0];
              mkrow 2 [text "Talabat"; num 1000; num 500; num 1500; num 70];
              mkrow 3 [None; num 800; num 200; num 1000; num 10]] |}.

(** A renderer that cannot draw histograms. *)
Definition no_histogram (fig : figure) (path : string) : result unit :=
  match fig with
  | px_histogram _ _ _ _ => Raise ValueError
  | _ => Ok tt
  end.

Definition two_charts : list chart :=
  [("pie.png", px_pie one_answer "Employment Status" "Employment Status Share");
   ("age.png", px_histogram survey "Age (Years)" 10 "Age Distribution");
   ("income.png", px_box survey "Employment Status" "Age (Years)" "Income")].

(** A visitor who typed the right password and uploaded the sample
    workbook, with a pivot widget that fails. *)
Definition visitor : Session :=
  {| env_password := "s3cret";
     form_ok := true;
     form_pwd := "s3cret";
     choice := "Upload your own";
     included := None;
     uploaded := Some sample_workbook;
     widgets := default_selection;
     preset := "None";
     pivot_html := fun _ => inr "no template" |}.

(** * Properties *)

(** ** Column normalizer *)

Lemma kept_parts_filter (parts : list pyobj) :
  kept_parts parts = map py_str (filter (fun x => negb (is_marker x)) parts).
Proof.
  induction parts as [|x parts IH]; simpl; [reflexivity|].
  unfold is_marker at 1.
  destruct (py_str x =? "nan"); simpl; now rewrite IH.
Qed.

Lemma flatten_label_trimmed (col : label) :
  flatten_label col = spec_normalize_trimmed col.
Proof.
  destruct col; simpl; try reflexivity; now rewrite kept_parts_filter.
Qed.

Lemma kept_parts_no_marker (parts : list pyobj) :
  Forall (fun p => p <> "nan") (kept_parts parts).
Proof.
  induction parts as [|x parts IH]; simpl; [constructor|].
  destruct (py_str x =? "nan") eqn:E; [assumption|].
  constructor; [|assumption].
  now apply String.eqb_neq.
Qed.

Lemma flatten_columns_length (columns : list label) :
  List.length (_flatten_columns columns) = List.length columns.
Proof.
  induction columns as [|col rest IH]; simpl; congruence.
Qed.

(** C2, as stated, fails: the joined text is trimmed, so a first part that
    starts with a blank loses it. *)
Lemma flatten_join_untrimmed_counterexample :
  _flatten_columns [LTuple [PStr " a"; PNaN; PStr "b"]]
  <> map spec_normalize [LTuple [PStr " a"; PNaN; PStr "b"]].
Proof. vm_compute. discriminate. Qed.

(** C2 (amended): for every composite label the normalizer returns the
    trimmed join, with [" - "], of the string forms of the parts whose
    string form is not the missing-value marker; for every other label it
    returns the trimmed string form. *)
Theorem flatten_columns_spec (columns : list label) :
  _flatten_columns columns = map spec_normalize_trimmed columns.
Proof.
  induction columns as [|col rest IH]; simpl; [reflexivity|].
  now rewrite IH, flatten_label_trimmed.
Qed.

(** C6, as stated, fails: a composite of missing-value markers gives the
    empty string, not the text of the original label. *)
Lemma flatten_empty_composite_counterexample :
  filter (fun x => negb (is_marker x)) [PNaN; PNaN] = []
  /\ label_str (LTuple [PNaN; PNaN]) = "(nan, nan)"
  /\ _flatten_columns [LTuple [PNaN; PNaN]] = [""]
  /\ _flatten_columns [LTuple [PNaN; PNaN]] <> [label_str (LTuple [PNaN; PNaN])].
Proof. vm_compute. repeat split; discriminate. Qed.

(** C6 (amended): a composite label all of whose parts are discarded is
    normalized to the empty string, and the normalizer yields one string per
    label whatever the labels are. *)
Theorem flatten_empty_composite (parts : list pyobj) (columns : list label)
    (Hempty : filter (fun x => negb (is_marker x)) parts = []) :
  _flatten_columns (LTuple parts :: LList parts :: columns)
  = "" :: "" :: _flatten_columns columns
  /\ List.length (_flatten_columns (LTuple parts :: LList parts :: columns))
     = List.length (LTuple parts :: LList parts :: columns).
Proof.
  split; [|apply flatten_columns_length].
  simpl. now rewrite kept_parts_filter, Hempty.
Qed.

Lemma flatten_empty_composite_witness :
  filter (fun x => negb (is_marker x)) [PNaN; PStr "nan"] = []
  /\ _flatten_columns [LTuple [PNaN; PStr "nan"]; LList [PNaN; PStr "nan"];
                       LObj (PStr " Age ")]
     = [""; ""; "Age"].
Proof.
  split; [reflexivity|].
  exact (proj1 (flatten_empty_composite [PNaN; PStr "nan"]
                  [LObj (PStr " Age ")] eq_refl)).
Defined.

(** ** Dataset loader *)

Lemma mapM_Forall2 {A B : Type} (f : A -> result B) (l : list A) (ys : list B) :
  mapM f l = Ok ys <-> Forall2 (fun x y => f x = Ok y) l ys.
Proof.
  revert ys; induction l as [|x l IH]; intros ys; simpl.
  - split; intros H.
    + injection H as <-. constructor.
    + now inversion H.
  - split; intros H.
    + destruct (f x) as [y|e] eqn:Ex; simpl in H; [|discriminate].
      destruct (mapM f l) as [ys'|e] eqn:El; simpl in H; [|discriminate].
      injection H as <-. constructor; [assumption|]. now apply IH.
    + inversion H as [|x' y l' ys' Hx Hl]; subst.
      rewrite Hx; simpl. apply IH in Hl. now rewrite Hl.
Qed.

(** A sheet parses when one of the two readings succeeds; the rows are those
    of the reading that was used, and the three-row reading is preferred. *)
Lemma load_sheet_header3 (sheet : Sheet) (raw : Frame label) :
  read_header3 sheet = Ok raw ->
  exists df, load_sheet sheet = Ok df /\ rows df = rows raw
    /\ columns df = map (fun c => strip (replace "Unnamed: " "" c))
                        (_flatten_columns (columns raw)).
Proof.
  intros H. unfold load_sheet. rewrite H. simpl. eexists. repeat split.
Qed.

Lemma load_sheet_header1 (sheet : Sheet) (e : pyerr) (raw : Frame label) :
  read_header3 sheet = Raise e -> read_header1 sheet = Ok raw ->
  exists df, load_sheet sheet = Ok df /\ rows df = rows raw
    /\ columns df = map (fun c => strip (replace "Unnamed: " "" c))
                        (_flatten_columns (columns raw)).
Proof.
  intros H3 H1. unfold load_sheet. rewrite H3, H1. simpl. eexists. repeat split.
Qed.

Lemma load_sheet_fails (sheet : Sheet) (e3 e1 : pyerr) :
  read_header3 sheet = Raise e3 -> read_header1 sheet = Raise e1 ->
  load_sheet sheet = Raise e1.
Proof.
  intros H3 H1. unfold load_sheet. now rewrite H3, H1.
Qed.

Lemma list_eqb_refl (l : list string) : list_eqb l l = true.
Proof.
  induction l as [|x l IH]; simpl; [reflexivity|].
  now rewrite String.eqb_refl.
Qed.

Lemma reindex_from_length (k : nat) (rs : list row) :
  List.length (reindex_from k rs) = List.length rs.
Proof.
  revert k; induction rs as [|r rs IH]; intros k; simpl; [reflexivity|].
  now rewrite IH.
Qed.

Lemma reindex_from_index (k : nat) (rs : list row) :
  map row_index (reindex_from k rs) = seq k (List.length rs).
Proof.
  revert k; induction rs as [|r rs IH]; intros k; simpl; [reflexivity|].
  now rewrite IH.
Qed.

Lemma reindex_from_cells (k : nat) (rs : list row) :
  map row_cells (reindex_from k rs) = map row_cells rs.
Proof.
  revert k; induction rs as [|r rs IH]; intros k; simpl; [reflexivity|].
  now rewrite IH.
Qed.

Lemma same_columns_forallb (frames : list DataFrame) (cols cols' : list string) :
  cols = cols' ->
  Forall (fun df => columns df = cols) frames ->
  forallb (fun g => list_eqb (columns g) cols') frames = true.
Proof.
  intros <-. induction 1 as [|df frames Hdf _ IH]; simpl; [reflexivity|].
  now rewrite Hdf, list_eqb_refl.
Qed.

(** Stacking frames that share their columns. *)
Lemma concat_frames_same_columns (frames : list DataFrame) (cols : list string) :
  frames <> [] ->
  Forall (fun df => columns df = cols) frames ->
  concat_frames frames
  = Ok {| columns := cols;
          rows := reindex_from 0 (List.concat (map rows frames)) |}.
Proof.
  intros Hne Hcols. destruct frames as [|f frames]; [congruence|].
  unfold concat_frames.
  assert (Hf : columns f = cols) by now inversion Hcols.
  rewrite (same_columns_forallb (f :: frames) cols (columns f)) by easy.
  now rewrite Hf.
Qed.

(** C3: when every sheet parses and the normalized columns of the sheets
    agree, the loader returns a table with those columns whose rows are the
    rows of the sheets, one sheet after the other, so their number is the
    sum of the sheets' row counts, indexed 0, 1, 2, ... *)
Theorem load_excel_any_stacks_sheets
    (xls : Workbook) (frames : list DataFrame) (cols : list string)
    (Hparse : Forall2 (fun sheet df => load_sheet sheet = Ok df)
                      (sheet_names xls) frames)
    (Hcols : Forall (fun df => columns df = cols) frames) :
  exists df_all,
    load_excel_any xls = Ok df_all
    /\ columns df_all = cols
    /\ List.length (rows df_all)
       = list_sum (map (fun df => List.length (rows df)) frames)
    /\ map row_index (rows df_all) = seq 0 (List.length (rows df_all))
    /\ map row_cells (rows df_all)
       = map row_cells (List.concat (map rows frames)).
Proof.
  assert (Hne : frames <> []).
  { intros ->. unfold sheet_names in Hparse. inversion Hparse. }
  unfold load_excel_any, load_sheets.
  apply mapM_Forall2 in Hparse. rewrite Hparse. simpl.
  rewrite (concat_frames_same_columns frames cols Hne Hcols).
  eexists; split; [reflexivity|]. simpl.
  rewrite reindex_from_length, reindex_from_index, reindex_from_cells.
  rewrite length_concat, map_map.
  repeat split; reflexivity.
Qed.

Lemma load_excel_any_stacks_sheets_witness :
  exists df_all,
    load_excel_any sample_workbook = Ok df_all
    /\ columns df_all = ["Company"; "Age (Years)"]
    /\ List.length (rows df_all)
       = list_sum (map (fun df => List.length (rows df)) sample_frames)
    /\ map row_index (rows df_all) = seq 0 (List.length (rows df_all))
    /\ map row_cells (rows df_all)
       = map row_cells (List.concat (map rows sample_frames)).
Proof.
  apply (load_excel_any_stacks_sheets sample_workbook sample_frames
           ["Company"; "Age (Years)"]).
  - repeat (constructor; [reflexivity|]). constructor.
  - repeat (constructor; [reflexivity|]). constructor.
Defined.

(** The sample workbook, evaluated: three rows, indexed 0, 1, 2. *)
Example load_sample_workbook :
  load_excel_any sample_workbook
  = Ok {| columns := ["Company"; "Age (Years)"];
          rows := [mkrow 0 [text "Talabat"; num 31];
                   mkrow 1 [text "Bosta"; None];
                   mkrow 2 [text "Talabat"; num 44]] |}.
Proof. reflexivity. Qed.

(** ** Global filters *)

Lemma filter_all {A : Type} (l : list A) : filter (fun _ => true) l = l.
Proof. induction l as [|x l IH]; simpl; congruence. Qed.

Lemma filter_twice {A : Type} (f g : A -> bool) (l : list A) :
  filter g (filter f l) = filter (fun x => f x && g x) l.
Proof.
  induction l as [|x l IH]; simpl; [reflexivity|].
  destruct (f x); simpl; [destruct (g x)|]; now rewrite IH.
Qed.

(** What one pass over the categorical columns leaves of a view. *)
Lemma categorical_loop_spec (ui : FilterSelection) (df_all : DataFrame)
    (cs : list string) :
  forall v v' : DataFrame,
    categorical_loop ui df_all cs v = Ok v' ->
    columns v' = columns v
    /\ (exists keep, rows v' = filter keep (rows v))
    /\ (forall c, In c cs -> has_column df_all c = true ->
        exists vals, filter_options df_all c = Ok vals
          /\ forall r, In r (rows v') ->
             isin (cell_of (columns v) r c)
                  (multiselect ui (c ++ " filter") vals) = true).
Proof.
  induction cs as [|c cs IH]; intros v v' H; simpl in H.
  - injection H as <-. split; [reflexivity|]. split.
    + exists (fun _ => true). now rewrite filter_all.
    + intros c [].
  - destruct (has_column df_all c) eqn:Hc.
    + destruct (filter_options df_all c) as [vals|e] eqn:Hvals;
        simpl in H; [|discriminate].
      apply IH in H. destruct H as (Hcols & [keep Hrows] & Hsel).
      simpl in Hcols, Hrows, Hsel.
      split; [assumption|]. split.
      * eexists. rewrite Hrows. apply filter_twice.
      * intros c' [<-|Hc'] Hpresent.
        -- exists vals. split; [assumption|]. intros r Hr.
           rewrite Hrows in Hr. apply filter_In in Hr as [Hr _].
           now apply filter_In in Hr as [_ Hr].
        -- now apply Hsel.
    + apply IH in H. destruct H as (Hcols & Hrows & Hsel).
      repeat split; try assumption.
      intros c' [<-|Hc'] Hpresent; [congruence|]. now apply Hsel.
Qed.

Lemma between_bounds (lo hi : Z) (x : option Q) :
  between lo hi x = true ->
  exists q, x = Some q /\ (inject_Z lo <= q)%Q /\ (q <= inject_Z hi)%Q.
Proof.
  destruct x as [q|]; simpl; [|discriminate].
  intros H. apply andb_prop in H as [Hlo Hhi].
  exists q. repeat split; now apply Qle_bool_iff.
Qed.

Lemma age_of_cell (df : DataFrame) (r : row) (q : Q) :
  age_of df r = Some q -> cell_of (columns df) r age_column = Some (SNum q).
Proof.
  unfold age_of.
  destruct (cell_of (columns df) r age_column) as [[s|q']|]; congruence.
Qed.

(** The engine is the categorical pass followed by the age filter. *)
Lemma filter_engine_stages (ui : FilterSelection) (df_all df_view : DataFrame) :
  filter_engine ui df_all = Ok df_view ->
  exists v,
    categorical_loop ui df_all categorical_columns df_all = Ok v
    /\ columns df_view = columns v
    /\ ((has_column df_all age_column = false /\ df_view = v)
        \/ (has_column df_all age_column = true
            /\ exists min_age max_age,
                 age_bounds df_all = Ok (min_age, max_age)
                 /\ rows df_view
                    = filter (fun r =>
                                between (fst (slider ui min_age max_age))
                                        (snd (slider ui min_age max_age))
                                        (age_of v r)) (rows v))).
Proof.
  unfold filter_engine. intros Hrun.
  destruct (categorical_loop ui df_all categorical_columns df_all)
    as [v|e]; simpl in Hrun; [|discriminate].
  exists v. split; [reflexivity|].
  destruct (has_column df_all age_column).
  - destruct (age_bounds df_all) as [[min_age max_age]|e];
      simpl in Hrun; [|discriminate].
    injection Hrun as <-. split; [reflexivity|]. right.
    split; [reflexivity|]. now exists min_age, max_age.
  - injection Hrun as <-. split; [reflexivity|]. now left.
Qed.

Lemma filter_engine_shape (ui : FilterSelection) (df_all df_view : DataFrame) :
  filter_engine ui df_all = Ok df_view ->
  columns df_view = columns df_all
  /\ exists keep, rows df_view = filter keep (rows df_all).
Proof.
  intros Hrun. apply filter_engine_stages in Hrun as (v & Hloop & Hcols & Hage).
  apply categorical_loop_spec in Hloop as (Hcols' & [keep Hrows] & _).
  split; [congruence|].
  destruct Hage as [[_ ->]|[_ (min_age & max_age & _ & Hrows')]].
  - now exists keep.
  - eexists. rewrite Hrows', Hrows. apply filter_twice.
Qed.

Lemma filter_engine_categorical
    (ui : FilterSelection) (df_all df_view : DataFrame) (c : string) :
  filter_engine ui df_all = Ok df_view ->
  In c categorical_columns -> has_column df_all c = true ->
  exists vals, filter_options df_all c = Ok vals
    /\ forall r, In r (rows df_view) ->
       isin (cell_of (columns df_all) r c)
            (multiselect ui (c ++ " filter") vals) = true.
Proof.
  intros Hrun Hc Hpresent.
  apply filter_engine_stages in Hrun as (v & Hloop & Hcols & Hage).
  apply categorical_loop_spec in Hloop as (_ & _ & Hsel).
  destruct (Hsel c Hc Hpresent) as (vals & Hvals & Hin).
  exists vals. split; [assumption|]. intros r Hr. apply Hin.
  destruct Hage as [[_ ->]|[_ (min_age & max_age & _ & Hrows')]];
    [assumption|].
  rewrite Hrows' in Hr. now apply filter_In in Hr as [Hr _].
Qed.

Lemma filter_engine_age (ui : FilterSelection) (df_all df_view : DataFrame) :
  filter_engine ui df_all = Ok df_view ->
  has_column df_all age_column = true ->
  exists min_age max_age,
    age_bounds df_all = Ok (min_age, max_age)
    /\ forall r, In r (rows df_view) ->
       exists q, cell_of (columns df_all) r age_column = Some (SNum q)
         /\ (inject_Z (fst (slider ui min_age max_age)) <= q)%Q
         /\ (q <= inject_Z (snd (slider ui min_age max_age)))%Q.
Proof.
  intros Hrun Hpresent.
  apply filter_engine_stages in Hrun as (v & Hloop & Hcols & Hage).
  apply categorical_loop_spec in Hloop as (Hcols' & _ & _).
  destruct Hage as [[Habsent _]|[_ (min_age & max_age & Hb & Hrows')]];
    [congruence|].
  exists min_age, max_age. split; [assumption|]. intros r Hr.
  rewrite Hrows' in Hr. apply filter_In in Hr as [_ Hr].
  apply between_bounds in Hr as (q & Hq & Hlo & Hhi).
  exists q. apply age_of_cell in Hq. rewrite Hcols' in Hq. now repeat split.
Qed.

(** When the engine returns a view at all: the options of every present
    categorical column can be sorted, and the age bounds, if the column is
    there, can be taken. *)
Lemma categorical_loop_total (ui : FilterSelection) (df_all : DataFrame)
    (cs : list string) :
  (forall c, In c cs -> has_column df_all c = true ->
     exists vals, filter_options df_all c = Ok vals) ->
  forall v, exists v', categorical_loop ui df_all cs v = Ok v'.
Proof.
  induction cs as [|c cs IH]; intros Hopts v; simpl; [now eexists|].
  assert (Hrest : forall c', In c' cs -> has_column df_all c' = true ->
                    exists vals, filter_options df_all c' = Ok vals).
  { intros c' Hc'. apply Hopts. now right. }
  destruct (has_column df_all c) eqn:Hc; [|now apply IH].
  destruct (Hopts c (or_introl eq_refl) Hc) as [vals Hvals].
  rewrite Hvals. simpl. now apply IH.
Qed.


(** The options of a column of text only, or of numbers only, can be
    sorted; a column with both cannot. *)
Lemma filter_options_total (df_all : DataFrame) (c : string) :
  (exists vals, filter_options df_all c = Ok vals)
  <-> (forallb is_str (unique (dropna (column df_all c)))
       || forallb is_num (unique (dropna (column df_all c))) = true).
Proof.
  unfold filter_options, py_sorted.
  destruct (_ || _); split; intros H; try reflexivity; try discriminate.
  - now eexists.
  - now destruct H.
Qed.

(** C1: whatever the table and the selection, a view the filter engine
    produces has the table's columns; its rows are rows of the table, in the
    table's order, hence no more than the table has; and every row kept is
    in the selection of every categorical filter whose column is present and,
    when the age column is present, has an age inside the chosen range, ends
    included. *)
Theorem filter_engine_view
    (ui : FilterSelection) (df_all df_view : DataFrame)
    (Hrun : filter_engine ui df_all = Ok df_view) :
  columns df_view = columns df_all
  /\ (exists keep, rows df_view = filter keep (rows df_all))
  /\ incl (rows df_view) (rows df_all)
  /\ List.length (rows df_view) <= List.length (rows df_all)
  /\ (forall c, In c categorical_columns -> has_column df_all c = true ->
      exists vals, filter_options df_all c = Ok vals
        /\ forall r, In r (rows df_view) ->
           isin (cell_of (columns df_all) r c)
                (multiselect ui (c ++ " filter") vals) = true)
  /\ (has_column df_all age_column = true ->
      exists min_age max_age,
        age_bounds df_all = Ok (min_age, max_age)
        /\ forall r, In r (rows df_view) ->
           exists q, cell_of (columns df_all) r age_column = Some (SNum q)
             /\ (inject_Z (fst (slider ui min_age max_age)) <= q)%Q
             /\ (q <= inject_Z (snd (slider ui min_age max_age)))%Q).
Proof.
  destruct (filter_engine_shape ui df_all df_view Hrun) as (Hcols & keep & Hrows).
  split; [assumption|]. split; [now exists keep|].
  split; [rewrite Hrows; apply incl_filter|].
  split; [rewrite Hrows; apply filter_length_le|].
  split.
  - intros c. now apply filter_engine_categorical.
  - now apply filter_engine_age.
Qed.

Lemma filter_engine_view_witness :
  exists df_view,
    filter_engine default_selection survey = Ok df_view
    /\ columns df_view = columns survey
    /\ incl (rows df_view) (rows survey)
    /\ List.length (rows df_view) <= List.length (rows survey).
Proof.
  eexists. split; [reflexivity|].
  pose proof (filter_engine_view default_selection survey _ eq_refl) as H.
  repeat split; apply H.
Defined.

(** Under the default selection exactly the two complete rows are left. *)
Example filter_survey_default :
  filter_engine default_selection survey
  = Ok {| columns := columns survey;
          rows := [mkrow 0 [text "Talabat"; text "Full-time"; num 31; text "Yes"];
                   mkrow 4 [text "Bosta"; text "Part-time"; num 52; text "Yes"]] |}.
Proof. reflexivity. Qed.

(** A table whose age column has no value at all stops the script:
    [int(nan)] raises. *)
Example filter_engine_no_age :
  filter_engine default_selection
    {| columns := ["Age (Years)"]; rows := [mkrow 0 [None]] |}
  = Raise ValueError.
Proof. reflexivity. Qed.

(** *** The options of a categorical filter *)

Lemma scalar_eqb_refl (v : scalar) : scalar_eqb v v = true.
Proof.
  destruct v; simpl; [apply String.eqb_refl | apply Qeq_bool_refl].
Qed.

Lemma scalar_eqb_sym (a b : scalar) : scalar_eqb a b = scalar_eqb b a.
Proof.
  destruct a, b; simpl; try reflexivity;
    [apply String.eqb_sym | apply Qeq_bool_comm].
Qed.

Lemma scalar_eqb_trans (a b c : scalar) :
  scalar_eqb a b = true -> scalar_eqb b c = true -> scalar_eqb a c = true.
Proof.
  destruct a, b, c; simpl; try discriminate.
  - intros H1 H2. apply String.eqb_eq in H1, H2. subst. apply String.eqb_refl.
  - apply Qeq_bool_trans.
Qed.

Lemma dropna_In (v : scalar) (s : list cell) :
  In v (dropna s) <-> In (Some v) s.
Proof.
  induction s as [|[w|] s IH]; simpl.
  - tauto.
  - rewrite IH. split; intros [H|H]; auto; left; congruence.
  - rewrite IH. split; [auto|]. intros [H|H]; [discriminate|assumption].
Qed.

Lemma unique_In (v : scalar) (l : list scalar) : In v (unique l) -> In v l.
Proof.
  induction l as [|x l IH]; simpl; [tauto|].
  intros [H|H]; [now left|].
  apply filter_In in H as [H _]. right. now apply IH.
Qed.

Lemma unique_covers (v : scalar) (l : list scalar) :
  In v l -> existsb (scalar_eqb v) (unique l) = true.
Proof.
  induction l as [|x l IH]; simpl; [tauto|].
  intros [->|H].
  - now rewrite scalar_eqb_refl.
  - destruct (scalar_eqb v x) eqn:Evx; [reflexivity|]. simpl.
    apply IH in H. apply existsb_exists in H as (w & Hw & Evw).
    apply existsb_exists. exists w. split; [|assumption].
    apply filter_In. split; [assumption|].
    destruct (scalar_eqb x w) eqn:Exw; [|reflexivity].
    rewrite scalar_eqb_sym in Exw.
    now rewrite (scalar_eqb_trans v w x Evw Exw) in Evx.
Qed.

Lemma existsb_filter_weaken (p : scalar -> bool) (x : scalar) (l : list scalar) :
  existsb (scalar_eqb x) (filter p l) = true ->
  existsb (scalar_eqb x) l = true.
Proof.
  intros H. apply existsb_exists in H as (w & Hw & E).
  apply filter_In in Hw as [Hw _].
  apply existsb_exists. now exists w.
Qed.

Lemma all_distinct_filter (p : scalar -> bool) (l : list scalar) :
  all_distinct l = true -> all_distinct (filter p l) = true.
Proof.
  induction l as [|x l IH]; simpl; [reflexivity|].
  intros H. apply andb_prop in H as [Hx Hl].
  destruct (p x); simpl; [|now apply IH].
  rewrite IH by assumption. rewrite andb_true_r.
  destruct (existsb (scalar_eqb x) (filter p l)) eqn:E; [|reflexivity].
  apply existsb_filter_weaken in E. now rewrite E in Hx.
Qed.

Lemma unique_distinct (l : list scalar) : all_distinct (unique l) = true.
Proof.
  induction l as [|x l IH]; simpl; [reflexivity|].
  rewrite all_distinct_filter by assumption. rewrite andb_true_r.
  destruct (existsb _ _) eqn:E; [|reflexivity].
  apply existsb_exists in E as (w & Hw & E).
  apply filter_In in Hw as [_ Hw]. now rewrite E in Hw.
Qed.

Lemma insert_sorted_In (v x : scalar) (l : list scalar) :
  In v (insert_sorted x l) <-> v = x \/ In v l.
Proof.
  induction l as [|y l IH]; simpl.
  - intuition congruence.
  - destruct (scalar_leb x y); simpl; [intuition congruence|].
    rewrite IH. intuition congruence.
Qed.

Lemma insertion_sort_In (v : scalar) (l : list scalar) :
  In v (insertion_sort l) <-> In v l.
Proof.
  induction l as [|x l IH]; simpl; [tauto|].
  rewrite insert_sorted_In, IH. intuition congruence.
Qed.

Lemma existsb_insert_sorted (v x : scalar) (l : list scalar) :
  existsb (scalar_eqb v) (insert_sorted x l)
  = scalar_eqb v x || existsb (scalar_eqb v) l.
Proof.
  induction l as [|y l IH]; simpl; [reflexivity|].
  destruct (scalar_leb x y); simpl; [reflexivity|].
  rewrite IH. now destruct (scalar_eqb v x), (scalar_eqb v y).
Qed.

Lemma all_distinct_insert_sorted (x : scalar) (l : list scalar) :
  all_distinct (insert_sorted x l)
  = negb (existsb (scalar_eqb x) l) && all_distinct l.
Proof.
  induction l as [|y l IH]; simpl; [reflexivity|].
  destruct (scalar_leb x y); simpl; [reflexivity|].
  rewrite IH, existsb_insert_sorted, (scalar_eqb_sym y x).
  destruct (scalar_eqb x y), (existsb (scalar_eqb y) l),
    (existsb (scalar_eqb x) l); reflexivity.
Qed.

Lemma existsb_insertion_sort (v : scalar) (l : list scalar) :
  existsb (scalar_eqb v) (insertion_sort l) = existsb (scalar_eqb v) l.
Proof.
  induction l as [|x l IH]; simpl; [reflexivity|].
  now rewrite existsb_insert_sorted, IH.
Qed.

Lemma all_distinct_insertion_sort (l : list scalar) :
  all_distinct (insertion_sort l) = all_distinct l.
Proof.
  induction l as [|x l IH]; simpl; [reflexivity|].
  now rewrite all_distinct_insert_sorted, existsb_insertion_sort, IH.
Qed.

Lemma insertion_sort_perm (l : list scalar) : Permutation (insertion_sort l) l.
Proof.
  induction l as [|x l IH]; simpl; [constructor|].
  transitivity (x :: insertion_sort l); [|now constructor].
  generalize (insertion_sort l) as s. clear.
  induction s as [|y s IH]; simpl; [reflexivity|].
  destruct (scalar_leb x y); [reflexivity|].
  rewrite IH. apply perm_swap.
Qed.

(** The options offered for a column are its distinct non-missing values. *)
Lemma filter_options_spec (df_all : DataFrame) (c : string) (vals : list scalar) :
  filter_options df_all c = Ok vals ->
  Permutation vals (unique (dropna (column df_all c)))
  /\ (forall v, In v vals -> In (Some v) (column df_all c))
  /\ (forall v, In (Some v) (column df_all c) ->
      existsb (scalar_eqb v) vals = true)
  /\ all_distinct vals = true.
Proof.
  unfold filter_options, py_sorted.
  destruct (_ || _); [|discriminate].
  intros H; injection H as <-. repeat split.
  - apply insertion_sort_perm.
  - intros v Hv. apply insertion_sort_In, unique_In in Hv.
    now apply dropna_In in Hv.
  - intros v Hv. rewrite existsb_insertion_sort.
    apply unique_covers. now apply dropna_In.
  - rewrite all_distinct_insertion_sort. apply unique_distinct.
Qed.

(** C9: for a categorical filter column that is present, the options are
    the column's distinct non-missing values; so with nothing deselected a
    row whose value in that column is missing is still left out of the view,
    and the view differs from the table as soon as there is such a row. *)
Theorem default_selection_drops_missing
    (df_all df_view : DataFrame) (c : string)
    (Hc : In c categorical_columns)
    (Hpresent : has_column df_all c = true)
    (Hrun : filter_engine default_selection df_all = Ok df_view) :
  (exists vals,
      filter_options df_all c = Ok vals
      /\ (forall v, In v vals -> In (Some v) (column df_all c))
      /\ (forall v, In (Some v) (column df_all c) ->
          existsb (scalar_eqb v) vals = true)
      /\ all_distinct vals = true)
  /\ (forall r, In r (rows df_all) ->
      cell_of (columns df_all) r c = None -> ~ In r (rows df_view))
  /\ ((exists r, In r (rows df_all) /\ cell_of (columns df_all) r c = None) ->
      rows df_view <> rows df_all).
Proof.
  destruct (filter_engine_categorical default_selection df_all df_view c
              Hrun Hc Hpresent) as (vals & Hvals & Hin).
  assert (Hdrop : forall r, cell_of (columns df_all) r c = None ->
                            ~ In r (rows df_view)).
  { intros r Hmiss Hr. apply Hin in Hr. rewrite Hmiss in Hr. discriminate. }
  split; [|split].
  - exists vals. split; [assumption|].
    now apply filter_options_spec in Hvals as (_ & H1 & H2 & H3).
  - intros r _. apply Hdrop.
  - intros (r & Hr & Hmiss) Heq. apply (Hdrop r Hmiss). now rewrite Heq.
Qed.

Lemma default_selection_drops_missing_witness :
  exists df_view,
    filter_engine default_selection survey = Ok df_view
    /\ ~ In (mkrow 1 [None; text "Part-time"; num 25; text "Yes"]) (rows df_view)
    /\ rows df_view <> rows survey.
Proof.
  eexists. split; [reflexivity|].
  pose proof (default_selection_drops_missing survey _ "Company"
                (or_introl eq_refl) eq_refl eq_refl) as (_ & Hdrop & Hdiff).
  split.
  - apply Hdrop; [simpl; auto|reflexivity].
  - apply Hdiff. exists (mkrow 1 [None; text "Part-time"; num 25; text "Yes"]).
    split; [simpl; auto|reflexivity].
Defined.

(** ** Key metrics *)

Lemma column_empty (df : DataFrame) (c : string) :
  rows df = [] -> column df c = [].
Proof. unfold column. now intros ->. Qed.

Lemma column_nonempty (df : DataFrame) (c : string) :
  rows df <> [] -> series_empty (column df c) = false.
Proof.
  unfold column. destruct (rows df); [congruence|reflexivity].
Qed.

(** C7: on an empty view that has the employment-status column, the
    most-common-employment metric is the text "N/A"; nothing raises, and the
    panel shows that card. *)
Theorem empty_view_employment_sentinel (df_view : DataFrame)
    (Hcol : has_column df_view employment_column = true)
    (Hempty : rows df_view = []) :
  most_common_employment df_view = Ok (SStr "N/A")
  /\ exists ms, metrics_panel df_view = Ok ms
       /\ In ("Most Common Employment", Some (SStr "N/A")) ms.
Proof.
  assert (Hmode : most_common_employment df_view = Ok (SStr "N/A")).
  { unfold most_common_employment. now rewrite column_empty. }
  split; [assumption|].
  unfold metrics_panel, avg_deliveries, avg_net_income.
  rewrite Hcol, Hmode, !column_empty by assumption. simpl.
  destruct (has_column df_view deliveries_column),
    (has_column df_view insurance_column),
    (has_column df_view income_column);
    simpl; eexists; (split; [reflexivity|]); simpl; tauto.
Qed.

Lemma empty_view_employment_sentinel_witness :
  most_common_employment empty_view = Ok (SStr "N/A")
  /\ exists ms, metrics_panel empty_view = Ok ms
       /\ In ("Most Common Employment", Some (SStr "N/A")) ms.
Proof.
  apply (empty_view_employment_sentinel empty_view); reflexivity.
Defined.

Lemma dropna_all_missing (s : list cell) :
  (forall x, In x s -> x = None) -> dropna s = [].
Proof.
  induction s as [|x s IH]; intros H; simpl; [reflexivity|].
  rewrite (H x (or_introl eq_refl)). apply IH. intros y Hy. apply H. now right.
Qed.

Lemma series_mode_all_missing (s : list cell) :
  (forall x, In x s -> x = None) -> series_mode s = [].
Proof.
  intros H. unfold series_mode. now rewrite dropna_all_missing.
Qed.

(** C10: on a non-empty view the "N/A" branch is not taken, the metric is
    item 0 of the mode; when every employment status of that view is missing
    the mode is empty, item 0 raises [KeyError], and the panel is not
    rendered. *)
Theorem all_missing_employment_raises (df_view : DataFrame)
    (Hcol : has_column df_view employment_column = true)
    (Hrows : rows df_view <> [])
    (Hmissing : forall r, In r (rows df_view) ->
                cell_of (columns df_view) r employment_column = None) :
  most_common_employment df_view
  = item0 (series_mode (column df_view employment_column))
  /\ series_mode (column df_view employment_column) = []
  /\ most_common_employment df_view = Raise (KeyError "0")
  /\ forall ms, metrics_panel df_view <> Ok ms.
Proof.
  assert (Hbranch : most_common_employment df_view
                    = item0 (series_mode (column df_view employment_column))).
  { unfold most_common_employment. now rewrite column_nonempty. }
  assert (Hmode : series_mode (column df_view employment_column) = []).
  { apply series_mode_all_missing. intros x Hx. unfold column in Hx.
    apply in_map_iff in Hx as (r & <- & Hr). now apply Hmissing. }
  assert (Hraise : most_common_employment df_view = Raise (KeyError "0")).
  { now rewrite Hbranch, Hmode. }
  repeat split; try assumption.
  intros ms. unfold metrics_panel. rewrite Hcol, Hraise.
  destruct (if has_column df_view deliveries_column then _ else _);
    simpl; [|discriminate].
  destruct (if has_column df_view income_column then _ else _);
    simpl; discriminate.
Qed.

Lemma all_missing_employment_raises_witness :
  most_common_employment unanswered = Raise (KeyError "0")
  /\ forall ms, metrics_panel unanswered <> Ok ms.
Proof.
  apply (all_missing_employment_raises unanswered).
  - reflexivity.
  - discriminate.
  - intros r [<-|[<-|[]]]; reflexivity.
Defined.

(** *** The mode of a view the filter engine produced *)

Lemma max_attained (f : scalar -> nat) (l : list scalar) :
  l <> [] -> exists v, In v l /\ f v = fold_right Nat.max 0 (map f l).
Proof.
  induction l as [|x l IH]; [congruence|]. intros _. simpl.
  destruct l as [|y l].
  - exists x. simpl. split; [auto|lia].
  - destruct IH as (v & Hv & Ev); [discriminate|].
    destruct (Nat.le_ge_cases (f x) (fold_right Nat.max 0 (map f (y :: l))))
      as [Hle|Hge].
    + exists v. split; [now right|]. rewrite Ev. lia.
    + exists x. split; [now left|]. lia.
Qed.

Lemma occurrences_eqb (v w : scalar) (l : list scalar) :
  scalar_eqb v w = true -> occurrences v l = occurrences w l.
Proof.
  intros E. unfold occurrences. f_equal. apply filter_ext. intros x.
  destruct (scalar_eqb w x) eqn:Ewx.
  - apply (scalar_eqb_trans v w x E Ewx).
  - destruct (scalar_eqb v x) eqn:Evx; [|reflexivity].
    rewrite scalar_eqb_sym in E.
    now rewrite (scalar_eqb_trans w v x E Evx) in Ewx.
Qed.

Lemma series_mode_nonempty (s : list cell) :
  dropna s <> [] -> series_mode s <> [].
Proof.
  intros Hne. unfold series_mode.
  set (vals := dropna s) in *.
  set (best := fold_right Nat.max 0 (map (fun v => occurrences v vals) vals)).
  destruct (max_attained (fun v => occurrences v vals) vals Hne)
    as (v & Hv & Ev). fold best in Ev.
  apply unique_covers, existsb_exists in Hv as (w & Hw & Evw).
  assert (Hmode : In w (filter (fun v => occurrences v vals =? best)%nat
                               (unique vals))).
  { apply filter_In. split; [assumption|].
    apply Nat.eqb_eq. now rewrite <- (occurrences_eqb v w vals Evw). }
  destruct (py_sorted _) as [sorted|e] eqn:Hs.
  - unfold py_sorted in Hs. destruct (_ || _); [|discriminate].
    injection Hs as <-. apply insertion_sort_In in Hmode.
    intros E. now rewrite E in Hmode.
  - intros E. now rewrite E in Hmode.
Qed.

(** A view that comes out of the filter engine has no missing employment
    status, so on such a view the most-common-employment metric never
    raises: the engine itself rules out the input that C10 is about. *)
Lemma filtered_view_employment_ok
    (ui : FilterSelection) (df_all df_view : DataFrame) :
  filter_engine ui df_all = Ok df_view ->
  has_column df_all employment_column = true ->
  (forall r, In r (rows df_view) ->
     cell_of (columns df_view) r employment_column <> None)
  /\ exists mode, most_common_employment df_view = Ok mode.
Proof.
  intros Hrun Hcol.
  destruct (filter_engine_shape ui df_all df_view Hrun) as (Hcols & _).
  destruct (filter_engine_categorical ui df_all df_view employment_column Hrun)
    as (vals & _ & Hin); [simpl; auto|assumption|].
  assert (Hpresent : forall r, In r (rows df_view) ->
            cell_of (columns df_view) r employment_column <> None).
  { intros r Hr E. apply Hin in Hr. rewrite Hcols in E. rewrite E in Hr.
    discriminate. }
  split; [assumption|].
  unfold most_common_employment.
  destruct (rows df_view) as [|r rs] eqn:Hrows.
  - rewrite column_empty by assumption. now eexists.
  - rewrite column_nonempty by congruence. simpl.
    destruct (series_mode (column df_view employment_column))
      as [|mode modes] eqn:Hmode; [|now eexists].
    exfalso. revert Hmode. apply series_mode_nonempty.
    unfold column. rewrite Hrows. simpl.
    destruct (cell_of (columns df_view) r employment_column) eqn:E;
      [discriminate|].
    exfalso. apply (Hpresent r); [now left|assumption].
Qed.

(** *** Medical insurance *)

Lemma series_eq_yes_count (df : DataFrame) :
  List.length (filter id (series_eq (column df insurance_column) (SStr "Yes")))
  = yes_rows df.
Proof.
  unfold yes_rows, column, series_eq. rewrite map_map.
  induction (rows df) as [|r rs IH]; simpl; [reflexivity|].
  destruct (cell_of (columns df) r insurance_column) as [[s|q]|];
    simpl; try assumption.
  unfold id at 1. destruct (s =? "Yes"); simpl; now rewrite IH.
Qed.

Lemma insurance_pct_value (df_view : DataFrame) :
  rows df_view <> [] ->
  insurance_pct df_view
  = Some (inject_Z (Z.of_nat (yes_rows df_view))
          / inject_Z (Z.of_nat (List.length (rows df_view))) * 100)%Q.
Proof.
  intros Hne. unfold insurance_pct, bool_mean.
  rewrite series_eq_yes_count.
  assert (Hlen : List.length (series_eq (column df_view insurance_column)
                                (SStr "Yes"))
                 = List.length (rows df_view)).
  { unfold series_eq, column. now rewrite !length_map. }
  destruct (series_eq _ _) as [|b bs] eqn:E.
  - destruct (rows df_view); [congruence|discriminate].
  - simpl option_map. now rewrite <- Hlen.
Qed.

(** On an empty view the mean of no rows is NaN and the card reads "nan%". *)
Lemma insurance_pct_empty (df_view : DataFrame) :
  rows df_view = [] ->
  insurance_pct df_view = None /\ fixed1 (insurance_pct df_view) = "nan".
Proof.
  intros H. unfold insurance_pct. now rewrite column_empty.
Qed.




(** ** Visual analytics *)

(** The first four charts are built or left out by their guards and cannot
    raise; only the expense chart can. *)
Lemma chart_builder_without_expenses (df_view : DataFrame) :
  has_column df_view "Fuel Expenses (EGP)" && has_column df_view company_column
  = false ->
  exists charts, chart_builder df_view = Ok charts.
Proof.
  intros H. unfold chart_builder. rewrite H. now eexists.
Qed.

Lemma groupby_select_missing (df : DataFrame) (cols : list string) (c : string) :
  In c cols -> has_column df c = false ->
  exists msg, groupby_select df cols = Raise (KeyError msg).
Proof.
  intros Hc Hmiss. unfold groupby_select.
  destruct (filter _ cols) as [|m ms] eqn:E; [|now eexists].
  assert (Hin : In c (filter (fun c => negb (has_column df c)) cols)).
  { apply filter_In. split; [assumption|]. now rewrite Hmiss. }
  rewrite E in Hin. destruct Hin.
Qed.

(** Whenever the guard of the expense chart passes and one of the four
    expense columns is absent, the chart block raises [KeyError]. *)
Lemma chart_builder_missing_expense (df_view : DataFrame) (c : string) :
  has_column df_view "Fuel Expenses (EGP)" = true ->
  has_column df_view company_column = true ->
  In c expense_columns -> has_column df_view c = false ->
  exists msg, chart_builder df_view = Raise (KeyError msg).
Proof.
  intros Hfuel Hcompany Hc Hmiss. unfold chart_builder, groupby_mean.
  rewrite Hfuel, Hcompany. simpl andb. cbv iota.
  destruct (groupby_select_missing df_view expense_columns c Hc Hmiss)
    as [msg Hmsg].
  rewrite Hmsg. now exists msg.
Qed.

(** C4 does not hold of the code: a view with the company and the fuel
    column passes the guard of the expense chart, the chart reads three more
    columns, and the chart block ends in [KeyError], naming the missing
    columns, instead of leaving the chart out. *)
Theorem chart_builder_fuel_only_raises :
  has_column fuel_only "Fuel Expenses (EGP)" = true
  /\ has_column fuel_only company_column = true
  /\ has_column fuel_only "Maintenance Costs (EGP)" = false
  /\ exists msg,
       chart_builder fuel_only = Raise (KeyError msg)
       /\ prefix "Columns not found: " msg = true
       /\ forallb (fun c => contains c msg)
            ["Maintenance Costs (EGP)"; "Financing/Lease (EGP)";
             "Other Expenses (licenses, permits, fines, etc....)"] = true
       /\ contains "Fuel Expenses (EGP)" msg = false.
Proof.
  repeat split. eexists. split; [reflexivity|]. repeat split.
Qed.

(** With all four expense columns the same view gets its chart. *)
Example chart_builder_all_expenses :
  exists fig,
    chart_builder
      {| columns := ["Company"; "Fuel Expenses (EGP)"; "Maintenance Costs (EGP)";
                     "Financing/Lease (EGP)";
                     "Other Expenses (licenses, permits, fines, etc....)"];
         rows := [mkrow 0 [text "Talabat"; num 1200; num 300; None; num 50]] |}
    = Ok [("expenses.png", fig)].
Proof. eexists. reflexivity. Qed.

(** ** PDF export *)

Section ExportProperties.

Variable now : string.
Variable tmpdir : string.
Variable write_image : figure -> string -> result unit.

Lemma paragraphs_app (a b : list flowable) :
  paragraphs (a ++ b) = paragraphs a ++ paragraphs b.
Proof.
  induction a as [|x a IH]; simpl; [reflexivity|].
  destruct x; simpl; now rewrite IH.
Qed.

Lemma chart_images_no_paragraph (charts : list chart) (images : list flowable) :
  chart_images tmpdir write_image charts = Ok images ->
  paragraphs images = [].
Proof.
  revert images; induction charts as [|[fname fig] rest IH]; intros images;
    simpl.
  - now intros [= <-].
  - destruct (write_image fig _); simpl; [|discriminate].
    destruct (chart_images tmpdir write_image rest) as [more|];
      simpl; [|discriminate].
    intros [= <-]. simpl. now apply IH.
Qed.

(** The metric lines of the document are the lines of the first three
    cards of the panel. *)
Lemma pdf_kpi_lines_panel (df_view : DataFrame) (ms : list (string * cell)) :
  metrics_panel df_view = Ok ms ->
  exists kpis,
    pdf_kpi_lines df_view = Ok kpis
    /\ paragraphs kpis
       = map metric_line
           (filter (fun m => negb (fst m =? "Most Common Employment")) ms).
Proof.
  unfold metrics_panel, pdf_kpi_lines.
  destruct (has_column df_view deliveries_column);
    [destruct (avg_deliveries df_view) as [avg|]; simpl; [|discriminate]|];
    (destruct (has_column df_view income_column);
     [destruct (avg_net_income df_view) as [inc|]; simpl; [|discriminate]|]);
    (destruct (has_column df_view employment_column);
     [destruct (most_common_employment df_view) as [mode|];
      simpl; [|discriminate]|]);
    destruct (has_column df_view insurance_column);
    simpl; intros [= <-]; eexists; (split; [reflexivity|]);
    try destruct avg; reflexivity.
Qed.

(** C5 (amended): the text of the exported document is the title, the
    timestamp and, for each of the three numeric cards the panel shows
    (average deliveries per day, percentage with medical insurance, average
    net income), a line with the card's label and the same formatted
    value; the most-common-employment card has no line in the document. *)
Theorem export_repeats_numeric_metrics
    (df_view : DataFrame) (charts : list chart)
    (ms : list (string * cell)) (flow : list flowable)
    (Hpanel : metrics_panel df_view = Ok ms)
    (Hflow : export_flow now tmpdir write_image df_view charts = Ok flow) :
  paragraphs flow
  = "Vans Data Dashboard Snapshot" :: now
    :: map metric_line
         (filter (fun m => negb (fst m =? "Most Common Employment")) ms).
Proof.
  destruct (pdf_kpi_lines_panel df_view ms Hpanel) as (kpis & Hkpis & Hlines).
  unfold export_flow in Hflow. rewrite Hkpis in Hflow. simpl in Hflow.
  destruct (chart_images tmpdir write_image charts) as [images|] eqn:Himg;
    simpl in Hflow; [|discriminate].
  injection Hflow as <-. simpl.
  rewrite paragraphs_app. simpl.
  rewrite (chart_images_no_paragraph charts images Himg), app_nil_r.
  now rewrite Hlines.
Qed.

End ExportProperties.

Lemma export_repeats_numeric_metrics_witness :
  paragraphs
    [Paragraph "Vans Data Dashboard Snapshot" "Title";
     Paragraph "2026-11-04 09:30" "Normal"; Spacer 1 12;
     Paragraph "% with Medical Insurance: 75.0%" "Normal"; Spacer 1 12]
  = ["Vans Data Dashboard Snapshot"; "2026-11-04 09:30";
     "% with Medical Insurance: 75.0%"].
Proof.
  exact (export_repeats_numeric_metrics "2026-11-04 09:30" "/tmp/export"
           (fun _ _ => Ok tt) insured [] _ _ eq_refl eq_refl).
Defined.

(** C5, as stated, fails: the panel of a view that only has the employment
    status shows the most common one, "Salaried"; the document exported from
    that view has two paragraphs, the title and the timestamp, and the word
    is in neither. *)
Lemma export_omits_employment_counterexample :
  metrics_panel one_answer
  = Ok [("Most Common Employment", Some (SStr "Salaried"))]
  /\ exists charts flow,
       chart_builder one_answer = Ok charts
       /\ export_flow "2026-11-04 09:30" "/tmp/export" (fun _ _ => Ok tt)
            one_answer charts = Ok flow
       /\ paragraphs flow = ["Vans Data Dashboard Snapshot"; "2026-11-04 09:30"]
       /\ forallb (fun line => negb (contains "Salaried" line)) (paragraphs flow)
          = true
       /\ ~ In (metric_line ("Most Common Employment", Some (SStr "Salaried")))
              (paragraphs flow).
Proof.
  split; [reflexivity|].
  eexists. eexists. split; [reflexivity|]. split; [reflexivity|].
  split; [reflexivity|]. split; [reflexivity|].
  simpl. intros [H|[H|[]]]; discriminate.
Qed.

(** ** The page *)

(** The sample workbook, rendered with nothing deselected: the row without
    an age is gone and the remaining ages span the slider. *)
Example render_sample_workbook :
  render default_selection sample_workbook
  = Ok {| page_view :=
            {| columns := ["Company"; "Age (Years)"];
               rows := [mkrow 0 [text "Talabat"; num 31];
                        mkrow 2 [text "Talabat"; num 44]] |};
          page_metrics := [];
          page_charts :=
            [("age.png",
              px_histogram
                {| columns := ["Company"; "Age (Years)"];
                   rows := [mkrow 0 [text "Talabat"; num 31];
                            mkrow 2 [text "Talabat"; num 44]] |}
                "Age (Years)" 10 "Age Distribution")] |}.
Proof. reflexivity. Qed.

(** * Further properties *)

(** ** Trimming and the placeholder *)

Lemma rstrip_idempotent (s : string) : rstrip (rstrip s) = rstrip s.
Proof.
  induction s as [|c s IH]; simpl; [reflexivity|].
  destruct (rstrip s) as [|d t] eqn:E.
  - destruct (is_space c) eqn:Ec; simpl; [reflexivity|]. now rewrite Ec.
  - simpl in IH |- *. now rewrite IH.
Qed.

Lemma rstrip_keeps_head (c : ascii) (s : string) :
  is_space c = false -> exists t, rstrip (String c s) = String c t.
Proof.
  intros Ec. simpl. destruct (rstrip s); [rewrite Ec|]; now eexists.
Qed.

Lemma lstrip_head (s : string) :
  lstrip s = "" \/ exists c t, lstrip s = String c t /\ is_space c = false.
Proof.
  induction s as [|c s IH]; simpl; [now left|].
  destruct (is_space c) eqn:Ec; [assumption|]. right. now exists c, s.
Qed.

Lemma strip_idempotent (s : string) : strip (strip s) = strip s.
Proof.
  unfold strip. destruct (lstrip_head s) as [E|(c & t & E & Ec)]; rewrite E.
  - reflexivity.
  - destruct (rstrip_keeps_head c t Ec) as [u Eu].
    rewrite Eu at 1. simpl lstrip. rewrite Ec, <- Eu. apply rstrip_idempotent.
Qed.

Lemma replace_absent (old new s : string) :
  contains old s = false -> replace old new s = s.
Proof.
  unfold replace. induction s as [|c s IH]; [reflexivity|].
  intros H. cbn [contains] in H. apply orb_false_elim in H as [Hp Hc].
  cbn [replace_from]. rewrite Hp. now rewrite IH.
Qed.

Lemma map_fixed {A : Type} (f : A -> A) (l : list A) :
  Forall (fun x => f x = x) l -> map f l = l.
Proof.
  induction 1 as [|x l Hx _ IH]; simpl; congruence.
Qed.

(** ** Column normalizer, further *)

Lemma kept_parts_app (a b : list pyobj) :
  kept_parts (a ++ b) = kept_parts a ++ kept_parts b.
Proof.
  induction a as [|x a IH]; simpl; [reflexivity|].
  destruct (py_str x =? "nan"); simpl; now rewrite IH.
Qed.

Lemma flatten_label_trimmed_already (col : label) :
  strip (flatten_label col) = flatten_label col.
Proof.
  destruct col; simpl; apply strip_idempotent.
Qed.

(** X1: a part whose string form is "nan", the float or the text, leaves
    no trace in the flattened label, wherever it stands in the tuple or
    list. *)
Theorem flatten_ignores_markers (before after : list pyobj) (m : pyobj)
    (Hm : py_str m = "nan") :
  flatten_label (LTuple (before ++ m :: after))
  = flatten_label (LTuple (before ++ after))
  /\ flatten_label (LList (before ++ m :: after))
     = flatten_label (LList (before ++ after)).
Proof.
  simpl. rewrite !kept_parts_app. simpl. rewrite Hm. simpl. now split.
Qed.

Lemma flatten_ignores_markers_witness :
  flatten_label (LTuple ([PStr "Pay"] ++ PStr "nan" :: [PStr "Net"]))
  = "Pay - Net".
Proof.
  exact (proj1 (flatten_ignores_markers [PStr "Pay"] [PStr "Net"] (PStr "nan")
                  eq_refl)).
Defined.

(** X2: flattening is idempotent: labels that are already flattened, read
    back as plain strings, come out unchanged. *)
Theorem flatten_columns_idempotent (columns : list label) :
  _flatten_columns (map (fun c => LObj (PStr c)) (_flatten_columns columns))
  = _flatten_columns columns.
Proof.
  induction columns as [|col rest IH]; simpl; [reflexivity|].
  now rewrite IH, flatten_label_trimmed_already.
Qed.

(** ** Dataset loader, further *)

Lemma load_sheet_columns (sheet : Sheet) (df : DataFrame) :
  load_sheet sheet = Ok df ->
  exists raw : Frame label,
    (read_header3 sheet = Ok raw
     \/ (exists e, read_header3 sheet = Raise e) /\ read_header1 sheet = Ok raw)
    /\ rows df = rows raw
    /\ columns df = map (fun c => strip (replace "Unnamed: " "" c))
                        (_flatten_columns (columns raw)).
Proof.
  unfold load_sheet.
  destruct (read_header3 sheet) as [raw|e] eqn:H3; simpl.
  - intros [= <-]. exists raw. repeat split. now left.
  - destruct (read_header1 sheet) as [raw|e1] eqn:H1; simpl; [|discriminate].
    intros [= <-]. exists raw. repeat split. right. split; [now exists e|easy].
Qed.

Lemma load_sheet_trimmed (sheet : Sheet) (df : DataFrame) :
  load_sheet sheet = Ok df -> Forall (fun c => strip c = c) (columns df).
Proof.
  intros H. apply load_sheet_columns in H as (raw & _ & _ & ->).
  apply Forall_forall. intros c Hc.
  apply in_map_iff in Hc as (c0 & <- & _). apply strip_idempotent.
Qed.

Lemma list_eqb_eq (a b : list string) : list_eqb a b = true -> a = b.
Proof.
  revert b; induction a as [|x a IH]; intros [|y b]; simpl;
    try discriminate; [reflexivity|].
  intros H. apply andb_prop in H as [Hx Hl].
  apply String.eqb_eq in Hx. apply IH in Hl. congruence.
Qed.

Lemma union_columns_from (acc : list string) (frames : list DataFrame)
    (c : string) :
  In c (union_columns acc frames) ->
  In c acc \/ exists f, In f frames /\ In c (columns f).
Proof.
  revert acc; induction frames as [|f frames IH]; intros acc; simpl;
    [now left|].
  intros H. apply IH in H as [H|(g & Hg & Hc)].
  - apply in_app_or in H as [H|H]; [now left|].
    apply filter_In in H as [H _]. right. exists f. auto.
  - right. exists g. auto.
Qed.

Lemma union_columns_acc (acc : list string) (frames : list DataFrame) :
  incl acc (union_columns acc frames).
Proof.
  revert acc; induction frames as [|f frames IH]; intros acc c Hc; simpl;
    [assumption|].
  apply IH. apply in_or_app. now left.
Qed.

Lemma union_columns_covers (acc : list string) (frames : list DataFrame)
    (f : DataFrame) :
  In f frames -> incl (columns f) (union_columns acc frames).
Proof.
  revert acc; induction frames as [|g frames IH]; intros acc; [intros []|].
  intros [->|Hf] c Hc; simpl.
  - apply union_columns_acc.
    destruct (existsb (String.eqb c) acc) eqn:E.
    + apply existsb_exists in E as (c' & Hc' & E).
      apply String.eqb_eq in E. subst. apply in_or_app. now left.
    + apply in_or_app. right. apply filter_In. split; [assumption|].
      now rewrite E.
  - now apply IH.
Qed.

(** The shape of whatever [pd.concat] returns. *)
Lemma concat_frames_shape (frames : list DataFrame) (df : DataFrame) :
  concat_frames frames = Ok df ->
  List.length (rows df) = list_sum (map (fun f => List.length (rows f)) frames)
  /\ map row_index (rows df) = seq 0 (List.length (rows df))
  /\ (forall f, In f frames -> incl (columns f) (columns df))
  /\ (forall c, In c (columns df) -> exists f, In f frames /\ In c (columns f)).
Proof.
  destruct frames as [|f0 frames]; [discriminate|].
  remember (f0 :: frames) as l eqn:El.
  assert (Hdef : concat_frames l
    = if forallb (fun g => list_eqb (columns g) (columns f0)) l
      then Ok {| columns := columns f0;
                 rows := reindex_from 0 (List.concat (map rows l)) |}
      else if existsb (fun g => has_duplicates (columns g)) l
      then Raise InvalidIndexError
      else Ok {| columns := union_columns [] l;
                 rows := reindex_from 0
                   (List.concat (map (project_rows (union_columns [] l)) l)) |})
    by (rewrite El; reflexivity).
  rewrite Hdef. clear Hdef.
  destruct (forallb (fun g => list_eqb (columns g) (columns f0)) l) eqn:Hsame.
  - intros [= <-]. cbn [rows columns].
    rewrite reindex_from_length, reindex_from_index, length_concat, map_map.
    repeat split.
    + intros f Hf. rewrite forallb_forall in Hsame.
      apply Hsame, list_eqb_eq in Hf. rewrite Hf. apply incl_refl.
    + intros c Hc. exists f0. split; [rewrite El; now left|assumption].
  - destruct (existsb (fun g => has_duplicates (columns g)) l); [discriminate|].
    intros [= <-]. cbn [rows columns].
    rewrite reindex_from_length, reindex_from_index, length_concat, !map_map.
    repeat split.
    + f_equal. apply map_ext. intros f. unfold project_rows.
      apply length_map.
    + intros f Hf. now apply union_columns_covers.
    + intros c Hc. apply union_columns_from in Hc as [[]|H]. exact H.
Qed.

(** X3: whatever the columns of the sheets, a table the loader returns has
    as many rows as the sheets together, indexed 0, 1, 2, ...; every column
    of every sheet is one of its columns and it has no other column. *)
Theorem load_excel_any_shape (xls : Workbook) (df_all : DataFrame)
    (Hload : load_excel_any xls = Ok df_all) :
  exists frames,
    Forall2 (fun sheet df => load_sheet sheet = Ok df) (sheet_names xls) frames
    /\ List.length (rows df_all)
       = list_sum (map (fun df => List.length (rows df)) frames)
    /\ map row_index (rows df_all) = seq 0 (List.length (rows df_all))
    /\ (forall df, In df frames -> incl (columns df) (columns df_all))
    /\ (forall c, In c (columns df_all) ->
        exists df, In df frames /\ In c (columns df)).
Proof.
  unfold load_excel_any, load_sheets in Hload.
  destruct (mapM load_sheet (sheet_names xls)) as [frames|e] eqn:Hframes;
    simpl in Hload; [|discriminate].
  exists frames. split; [now apply mapM_Forall2|].
  now apply concat_frames_shape.
Qed.

Lemma load_excel_any_shape_witness :
  exists df_all,
    load_excel_any mixed_workbook = Ok df_all
    /\ columns df_all = ["Company"; "Age (Years)"; "Areas Covered"]
    /\ List.length (rows df_all) = 3
    /\ map row_index (rows df_all) = [0; 1; 2].
Proof.
  eexists. split; [reflexivity|]. split; [reflexivity|].
  destruct (load_excel_any_shape mixed_workbook _ eq_refl)
    as (frames & _ & _ & Hindex & _).
  split; [reflexivity|exact Hindex].
Defined.

(** X4: the columns of a table the loader returns are already trimmed, so
    the clean-up of the column names that follows the load changes
    nothing. *)
Theorem clean_columns_after_load (xls : Workbook) (df_all : DataFrame)
    (Hload : load_excel_any xls = Ok df_all) :
  clean_columns df_all = df_all.
Proof.
  unfold load_excel_any, load_sheets in Hload.
  destruct (mapM load_sheet (sheet_names xls)) as [frames|e] eqn:Hframes;
    simpl in Hload; [|discriminate].
  apply mapM_Forall2 in Hframes.
  assert (Htrim : forall df, In df frames ->
                    Forall (fun c => strip c = c) (columns df)).
  { clear Hload. induction Hframes as [|sheet df sheets frames Hs _ IH];
      intros df' []; subst; [now apply load_sheet_trimmed in Hs|now apply IH]. }
  apply concat_frames_shape in Hload as (_ & _ & _ & Hfrom).
  destruct df_all as [cols rs]. unfold clean_columns, set_columns. simpl in *.
  f_equal. apply map_fixed, Forall_forall. intros c Hc.
  destruct (Hfrom c Hc) as (df & Hdf & Hin).
  specialize (Htrim df Hdf). rewrite Forall_forall in Htrim. now apply Htrim.
Qed.

Lemma clean_columns_after_load_witness :
  exists df_all,
    load_excel_any sample_workbook = Ok df_all /\ clean_columns df_all = df_all.
Proof.
  eexists. split; [reflexivity|].
  exact (clean_columns_after_load sample_workbook _ eq_refl).
Defined.

Lemma mapM_first_error {A B : Type} (f : A -> result B)
    (good rest : list A) (bad : A) (e : pyerr) :
  Forall (fun x => exists y, f x = Ok y) good ->
  f bad = Raise e ->
  mapM f (good ++ bad :: rest) = Raise e.
Proof.
  intros Hgood Hbad. induction Hgood as [|x good [y Hx] _ IH]; simpl.
  - now rewrite Hbad.
  - now rewrite Hx, IH.
Qed.

(** X5: the load stops at the first sheet that reads with neither header,
    whatever comes after it, and the exception that surfaces is the one of
    the one-row reading; the one of the three-row reading is swallowed. *)
Theorem load_excel_any_first_unreadable
    (xls : Workbook) (good rest : list Sheet) (bad : Sheet) (e3 e1 : pyerr)
    (Hsheets : sheet_names xls = good ++ bad :: rest)
    (Hgood : Forall (fun sheet => exists df, load_sheet sheet = Ok df) good)
    (H3 : read_header3 bad = Raise e3)
    (H1 : read_header1 bad = Raise e1) :
  load_excel_any xls = Raise e1.
Proof.
  unfold load_excel_any, load_sheets. rewrite Hsheets.
  rewrite (mapM_first_error load_sheet good rest bad e1 Hgood); [reflexivity|].
  now apply (load_sheet_fails bad e3).
Qed.

Lemma load_excel_any_first_unreadable_witness :
  load_excel_any broken_workbook = Raise TypeError.
Proof.
  apply (load_excel_any_first_unreadable broken_workbook
           [sheet_a] [sheet_b] sheet_broken ValueError TypeError).
  - reflexivity.
  - constructor; [|constructor]. eexists. reflexivity.
  - reflexivity.
  - reflexivity.
Defined.

(** X6: a sheet that only reads with a one-row header, and whose header
    cells are text without surrounding blanks and without the placeholder
    "Unnamed: ", keeps its header texts as column names and its rows as they
    are. *)
Theorem load_sheet_plain_headers
    (sheet : Sheet) (e : pyerr) (raw : Frame label) (names : list string)
    (H3 : read_header3 sheet = Raise e)
    (H1 : read_header1 sheet = Ok raw)
    (Hraw : columns raw = map (fun c => LObj (PStr c)) names)
    (Hplain : Forall (fun c => strip c = c /\ contains "Unnamed: " c = false)
                     names) :
  load_sheet sheet = Ok {| columns := names; rows := rows raw |}.
Proof.
  unfold load_sheet. rewrite H3, H1. simpl. unfold set_columns. simpl.
  do 2 f_equal. rewrite Hraw. clear Hraw.
  induction Hplain as [|c names [Hs Hc] _ IH]; simpl; [reflexivity|].
  now rewrite IH, Hs, (replace_absent _ _ _ Hc), Hs.
Qed.

Lemma load_sheet_plain_headers_witness :
  load_sheet sheet_plain
  = Ok {| columns := ["Company"; "Areas Covered"];
          rows := [mkrow 0 [text "Bosta"; text "Giza"]] |}.
Proof.
  apply (load_sheet_plain_headers sheet_plain ValueError
           {| columns := [LObj (PStr "Company"); LObj (PStr "Areas Covered")];
              rows := [mkrow 0 [text "Bosta"; text "Giza"]] |}
           ["Company"; "Areas Covered"]); try reflexivity.
  repeat constructor.
Defined.

(** ** Global filters, further *)

Lemma age_of_columns (v df : DataFrame) (r : row) :
  columns v = columns df -> age_of v r = age_of df r.
Proof. unfold age_of. now intros ->. Qed.

Lemma categorical_loop_rows (ui : FilterSelection) (df_all : DataFrame)
    (cs : list string) :
  forall v v' : DataFrame,
    columns v = columns df_all ->
    categorical_loop ui df_all cs v = Ok v' ->
    rows v' = filter (fun r => forallb (passes_categorical ui df_all r) cs)
                     (rows v).
Proof.
  induction cs as [|c cs IH]; intros v v' Hcols H; simpl in H.
  - injection H as <-. simpl. now rewrite filter_all.
  - destruct (has_column df_all c) eqn:Hc.
    + destruct (filter_options df_all c) as [vals|e] eqn:Hvals;
        simpl in H; [|discriminate].
      apply IH in H; [|assumption]. rewrite H. simpl rows.
      rewrite filter_twice. apply filter_ext. intros r. simpl.
      unfold passes_categorical at 2. now rewrite Hc, Hvals, Hcols.
    + apply IH in H; [|assumption]. rewrite H.
      apply filter_ext. intros r. simpl.
      unfold passes_categorical at 2. now rewrite Hc.
Qed.

Lemma filter_engine_rows (ui : FilterSelection) (df_all df_view : DataFrame) :
  filter_engine ui df_all = Ok df_view ->
  rows df_view = filter (keeps ui df_all) (rows df_all).
Proof.
  intros Hrun. apply filter_engine_stages in Hrun as (v & Hloop & Hcols & Hage).
  pose proof (categorical_loop_spec ui df_all _ _ _ Hloop) as (Hv & _ & _).
  apply categorical_loop_rows in Hloop; [|reflexivity].
  unfold keeps, passes_age.
  destruct Hage as [[Habsent ->]|[Hpresent (min_age & max_age & Hb & Hrows)]].
  - rewrite Hloop, Habsent. apply filter_ext. intros r. now rewrite andb_true_r.
  - rewrite Hrows, Hloop, filter_twice, Hpresent, Hb.
    apply filter_ext. intros r. now rewrite (age_of_columns v df_all r Hv).
Qed.

(** X7: the filters compose conjunctively and nothing else is lost: the
    rows of a view the engine produces are exactly the rows of the table, in
    the table's order, that pass every categorical filter and the age
    filter. *)
Theorem filter_engine_exact (ui : FilterSelection) (df_all df_view : DataFrame)
    (Hrun : filter_engine ui df_all = Ok df_view) :
  rows df_view = filter (keeps ui df_all) (rows df_all)
  /\ forall r, In r (rows df_view)
       <-> In r (rows df_all)
           /\ (forall c, In c categorical_columns ->
               passes_categorical ui df_all r c = true)
           /\ passes_age ui df_all r = true.
Proof.
  pose proof (filter_engine_rows ui df_all df_view Hrun) as Hrows.
  split; [assumption|]. intros r. rewrite Hrows, filter_In. unfold keeps.
  rewrite andb_true_iff, forallb_forall. tauto.
Qed.

Lemma filter_engine_exact_witness :
  exists df_view,
    filter_engine default_selection survey = Ok df_view
    /\ rows df_view = filter (keeps default_selection survey) (rows survey).
Proof.
  eexists. split; [reflexivity|].
  exact (proj1 (filter_engine_exact default_selection survey _ eq_refl)).
Defined.

(** X8: deselecting every option of a categorical filter whose column is
    present leaves an empty view. *)
Theorem cleared_filter_empties_view
    (ui : FilterSelection) (df_all df_view : DataFrame) (c : string)
    (vals : list scalar)
    (Hrun : filter_engine ui df_all = Ok df_view)
    (Hc : In c categorical_columns)
    (Hpresent : has_column df_all c = true)
    (Hvals : filter_options df_all c = Ok vals)
    (Hclear : multiselect ui (c ++ " filter") vals = []) :
  rows df_view = [].
Proof.
  destruct (filter_engine_categorical ui df_all df_view c Hrun Hc Hpresent)
    as (vals' & Hvals' & Hin).
  rewrite Hvals in Hvals'. injection Hvals' as <-.
  destruct (rows df_view) as [|r rs]; [reflexivity|].
  specialize (Hin r (or_introl eq_refl)). rewrite Hclear in Hin.
  unfold isin in Hin. destruct (cell_of _ r c); discriminate.
Qed.

Lemma cleared_filter_empties_view_witness :
  exists df_view,
    filter_engine no_company survey = Ok df_view /\ rows df_view = [].
Proof.
  eexists. split; [reflexivity|].
  apply (cleared_filter_empties_view no_company survey _ "Company"
           [SStr "Bosta"; SStr "Talabat"]);
    [reflexivity | simpl; auto | reflexivity | reflexivity | reflexivity].
Defined.

Lemma filter_keeps_all {A : Type} (f : A -> bool) (l : list A) :
  (forall x, In x l -> f x = true) -> filter f l = l.
Proof.
  induction l as [|x l IH]; intros H; simpl; [reflexivity|].
  rewrite (H x (or_introl eq_refl)), IH; [reflexivity|].
  intros y Hy. apply H. now right.
Qed.

(** The running minimum and maximum are values of the series and bound
    every value of it. *)
Lemma Qmin_b_spec (a b : Q) :
  (Qmin_b a b = a \/ Qmin_b a b = b)
  /\ (Qmin_b a b <= a)%Q /\ (Qmin_b a b <= b)%Q.
Proof.
  unfold Qmin_b. destruct (Qle_bool a b) eqn:E.
  - apply Qle_bool_iff in E. repeat split; auto. apply Qle_refl.
  - assert (b < a)%Q.
    { apply Qnot_le_lt. intros H. apply Qle_bool_iff in H. congruence. }
    repeat split; auto; [now apply Qlt_le_weak|apply Qle_refl].
Qed.

Lemma Qmax_b_spec (a b : Q) :
  (Qmax_b a b = a \/ Qmax_b a b = b)
  /\ (a <= Qmax_b a b)%Q /\ (b <= Qmax_b a b)%Q.
Proof.
  unfold Qmax_b. destruct (Qle_bool a b) eqn:E.
  - apply Qle_bool_iff in E. repeat split; auto. apply Qle_refl.
  - assert (b < a)%Q.
    { apply Qnot_le_lt. intros H. apply Qle_bool_iff in H. congruence. }
    repeat split; auto; [apply Qle_refl|now apply Qlt_le_weak].
Qed.

Lemma fold_min_spec (qs : list Q) :
  forall q, In (fold_left Qmin_b qs q) (q :: qs)
    /\ forall x, In x (q :: qs) -> (fold_left Qmin_b qs q <= x)%Q.
Proof.
  induction qs as [|y qs IH]; intros q; simpl.
  - split; [now left|]. intros x [<-|[]]. apply Qle_refl.
  - destruct (IH (Qmin_b q y)) as [Hin Hle].
    destruct (Qmin_b_spec q y) as (Hor & Hq & Hy).
    assert (Hm : (fold_left Qmin_b qs (Qmin_b q y) <= Qmin_b q y)%Q)
      by (apply Hle; now left).
    split.
    + destruct Hin as [Hin|Hin]; [|now right; right].
      rewrite <- Hin. destruct Hor as [->| ->]; auto.
    + intros x [<-|[<-|Hx]].
      * now apply Qle_trans with (Qmin_b q y).
      * now apply Qle_trans with (Qmin_b q y).
      * apply Hle. now right.
Qed.

Lemma fold_max_spec (qs : list Q) :
  forall q, In (fold_left Qmax_b qs q) (q :: qs)
    /\ forall x, In x (q :: qs) -> (x <= fold_left Qmax_b qs q)%Q.
Proof.
  induction qs as [|y qs IH]; intros q; simpl.
  - split; [now left|]. intros x [<-|[]]. apply Qle_refl.
  - destruct (IH (Qmax_b q y)) as [Hin Hle].
    destruct (Qmax_b_spec q y) as (Hor & Hq & Hy).
    assert (Hm : (Qmax_b q y <= fold_left Qmax_b qs (Qmax_b q y))%Q)
      by (apply Hle; now left).
    split.
    + destruct Hin as [Hin|Hin]; [|now right; right].
      rewrite <- Hin. destruct Hor as [->| ->]; auto.
    + intros x [<-|[<-|Hx]].
      * now apply Qle_trans with (Qmax_b q y).
      * now apply Qle_trans with (Qmax_b q y).
      * apply Hle. now right.
Qed.

Lemma series_min_spec (s : list (option Q)) (m : Q) :
  series_min s = Some m ->
  In m (present s) /\ forall x, In x (present s) -> (m <= x)%Q.
Proof.
  unfold series_min. destruct (present s) as [|q qs]; [discriminate|].
  intros [= <-]. apply fold_min_spec.
Qed.

Lemma series_max_spec (s : list (option Q)) (m : Q) :
  series_max s = Some m ->
  In m (present s) /\ forall x, In x (present s) -> (x <= m)%Q.
Proof.
  unfold series_max. destruct (present s) as [|q qs]; [discriminate|].
  intros [= <-]. apply fold_max_spec.
Qed.

Lemma numeric_series_present (s : list cell) (qs : list (option Q)) (q : Q) :
  numeric_series s = Ok qs -> (In q (present qs) <-> In (Some (SNum q)) s).
Proof.
  unfold numeric_series. revert qs; induction s as [|x s IH]; intros qs; simpl.
  - intros [= <-]. simpl. tauto.
  - destruct x as [[t|q']|]; simpl; try discriminate;
      destruct (mapM numeric s) as [qs'|] eqn:E; simpl; try discriminate;
      intros [= <-]; simpl; rewrite (IH qs' eq_refl).
    + split; intros [H|H]; auto; left; congruence.
    + split; auto. intros [H|H]; [discriminate|assumption].
Qed.

(** What the two ends of the slider are. *)
Lemma age_bounds_spec (df_all : DataFrame) (min_age max_age : Z) :
  age_bounds df_all = Ok (min_age, max_age) ->
  exists lo hi : Q,
    In (Some (SNum lo)) (column df_all age_column)
    /\ In (Some (SNum hi)) (column df_all age_column)
    /\ (forall q, In (Some (SNum q)) (column df_all age_column) ->
        (lo <= q)%Q /\ (q <= hi)%Q)
    /\ min_age = Z.quot (Qnum lo) (Zpos (Qden lo))
    /\ max_age = Z.quot (Qnum hi) (Zpos (Qden hi)).
Proof.
  unfold age_bounds.
  destruct (numeric_series (column df_all age_column)) as [ages|] eqn:Hages;
    simpl; [|discriminate].
  destruct (series_min ages) as [lo|] eqn:Hlo; simpl; [|discriminate].
  destruct (series_max ages) as [hi|] eqn:Hhi; simpl; [|discriminate].
  intros [= <- <-]. exists lo, hi.
  apply series_min_spec in Hlo as [Hlo Hmin].
  apply series_max_spec in Hhi as [Hhi Hmax].
  repeat split; try (now apply (numeric_series_present _ _ _ Hages)).
  - apply Hmin. now apply (numeric_series_present _ _ _ Hages).
  - apply Hmax. now apply (numeric_series_present _ _ _ Hages).
Qed.

Lemma column_In (df : DataFrame) (c : string) (x : cell) :
  In x (column df c) <-> exists r, In r (rows df) /\ cell_of (columns df) r c = x.
Proof.
  unfold column. rewrite in_map_iff. split; intros (r & H1 & H2); exists r; auto.
Qed.

(** X9: on a table that has no missing value in any categorical filter
    column it has, and only whole-number ages if it has the age column,
    the default selection filters nothing out: the view is the table. *)
Theorem default_selection_keeps_complete_table (df_all df_view : DataFrame)
    (Hrun : filter_engine default_selection df_all = Ok df_view)
    (Hcat : forall c r, In c categorical_columns ->
            has_column df_all c = true -> In r (rows df_all) ->
            cell_of (columns df_all) r c <> None)
    (Hage : has_column df_all age_column = true ->
            forall r, In r (rows df_all) ->
            exists z, cell_of (columns df_all) r age_column
                      = Some (SNum (inject_Z z))) :
  df_view = df_all.
Proof.
  destruct (filter_engine_shape _ _ _ Hrun) as (Hcols & _).
  pose proof (filter_engine_rows _ _ _ Hrun) as Hrows.
  assert (Hall : filter (keeps default_selection df_all) (rows df_all)
                 = rows df_all).
  { apply filter_keeps_all. intros r Hr. unfold keeps.
    apply andb_true_iff. split.
    - apply forallb_forall. intros c Hc. unfold passes_categorical.
      destruct (has_column df_all c) eqn:Hp; [|reflexivity].
      destruct (filter_engine_categorical _ _ _ c Hrun Hc Hp)
        as (vals & Hvals & _).
      rewrite Hvals. simpl multiselect.
      destruct (cell_of (columns df_all) r c) as [v|] eqn:E;
        [|now destruct (Hcat c r Hc Hp Hr)].
      apply filter_options_spec in Hvals as (_ & _ & Hcov & _).
      apply Hcov, column_In. now exists r.
    - unfold passes_age.
      destruct (has_column df_all age_column) eqn:Hp; [|reflexivity].
      destruct (filter_engine_age _ _ _ Hrun Hp) as (mn & mx & Hb & _).
      rewrite Hb. simpl slider. cbn [fst snd].
      destruct (Hage eq_refl r Hr) as [z Hz].
      unfold age_of. rewrite Hz. simpl between.
      apply age_bounds_spec in Hb
        as (lo & hi & Hlo & Hhi & Hbound & -> & ->).
      assert (Hz' : In (Some (SNum (inject_Z z))) (column df_all age_column))
        by (apply column_In; now exists r).
      apply Hbound in Hz' as [Hle Hge].
      apply column_In in Hlo as (rl & Hrl & El).
      apply column_In in Hhi as (rh & Hrh & Eh).
      destruct (Hage eq_refl rl Hrl) as [zl Hzl].
      destruct (Hage eq_refl rh Hrh) as [zh Hzh].
      rewrite El in Hzl. rewrite Eh in Hzh.
      injection Hzl as ->. injection Hzh as ->.
      simpl Qnum. simpl Qden. rewrite !Z.quot_1_r.
      apply andb_true_iff. split; now apply Qle_bool_iff. }
  destruct df_view as [cols rs], df_all as [cols' rs']. simpl in *.
  congruence.
Qed.

Lemma default_selection_keeps_complete_table_witness :
  exists df_view,
    filter_engine default_selection complete_survey = Ok df_view
    /\ df_view = complete_survey.
Proof.
  eexists. split; [reflexivity|].
  apply default_selection_keeps_complete_table.
  - reflexivity.
  - intros c r [<-|[<-|[<-|[]]]] Hp [<-|[<-|[<-|[]]]] E;
      vm_compute in Hp, E; discriminate.
  - intros _ r [<-|[<-|[<-|[]]]]; eexists; reflexivity.
Defined.

Lemma trunc_below (q : Q) :
  (0 < q)%Q -> (forall z, ~ (q == inject_Z z)%Q) ->
  (inject_Z (Z.quot (Qnum q) (Zpos (Qden q))) < q)%Q.
Proof.
  intros Hpos Hfrac.
  assert (Hnum : (0 <= Qnum q)%Z).
  { destruct q as [n d]. unfold Qlt in Hpos. simpl in *. lia. }
  rewrite Z.quot_div_nonneg by (auto; reflexivity).
  assert (Hfl : (Qnum q / Zpos (Qden q))%Z = Qfloor q) by now destruct q.
  rewrite Hfl.
  destruct (proj1 (Qle_lteq _ _) (Qfloor_le q)) as [H|H]; [assumption|].
  exfalso. apply (Hfrac (Qfloor q)). now symmetry.
Qed.

(** X10: the upper end of the default age range is the oldest age cut to
    a whole number, so when the oldest age is positive and not a whole
    number, every row of that age is filtered out although nothing was
    deselected. *)
Theorem default_selection_drops_fractional_oldest
    (df_all df_view : DataFrame) (oldest : Q)
    (Hrun : filter_engine default_selection df_all = Ok df_view)
    (Hpresent : has_column df_all age_column = true)
    (Hin : In (Some (SNum oldest)) (column df_all age_column))
    (Hmax : forall q, In (Some (SNum q)) (column df_all age_column) ->
            (q <= oldest)%Q)
    (Hpos : (0 < oldest)%Q)
    (Hfrac : forall z, ~ (oldest == inject_Z z)%Q) :
  (forall r, In r (rows df_all) ->
     cell_of (columns df_all) r age_column = Some (SNum oldest) ->
     ~ In r (rows df_view))
  /\ rows df_view <> rows df_all.
Proof.
  destruct (filter_engine_age _ _ _ Hrun Hpresent) as (mn & mx & Hb & Hview).
  simpl in Hview.
  apply age_bounds_spec in Hb as (lo & hi & _ & Hhi & Hbound & _ & ->).
  assert (Heq : (hi == oldest)%Q).
  { apply Qle_antisym; [now apply Hmax|now apply Hbound]. }
  assert (Hcut : (inject_Z (Z.quot (Qnum hi) (Zpos (Qden hi))) < oldest)%Q).
  { rewrite <- Heq. apply trunc_below.
    - now rewrite Heq.
    - intros z Hz. apply (Hfrac z). now rewrite <- Heq. }
  assert (Hdrop : forall r, cell_of (columns df_all) r age_column
                            = Some (SNum oldest) -> ~ In r (rows df_view)).
  { intros r Hr Hkept. apply Hview in Hkept as (q & Hq & _ & Hle).
    rewrite Hr in Hq. injection Hq as <-.
    apply (Qlt_not_le _ _ Hcut Hle). }
  split; [intros r _; apply Hdrop|].
  apply column_In in Hin as (r & Hr & Hcell).
  intros E. apply (Hdrop r Hcell). now rewrite E.
Qed.

Lemma default_selection_drops_fractional_oldest_witness :
  exists df_view,
    filter_engine default_selection fractional_survey = Ok df_view
    /\ ~ In (mkrow 1 [text "Bosta"; Some (SNum (81 # 2))]) (rows df_view)
    /\ rows df_view <> rows fractional_survey.
Proof.
  eexists. split; [reflexivity|].
  destruct (default_selection_drops_fractional_oldest fractional_survey _
              (81 # 2) eq_refl eq_refl) as [Hdrop Hdiff].
  - simpl. auto.
  - intros q [H|[H|[]]]; injection H as <-; unfold Qle; simpl; lia.
  - reflexivity.
  - intros z. unfold Qeq. simpl. lia.
  - split; [|exact Hdiff]. apply Hdrop; [simpl; auto|reflexivity].
Defined.

Lemma numeric_series_all_missing (s : list cell) :
  (forall x, In x s -> x = None) ->
  exists qs, numeric_series s = Ok qs /\ present qs = [].
Proof.
  unfold numeric_series. induction s as [|x s IH]; intros H; simpl.
  - now exists [].
  - rewrite (H x (or_introl eq_refl)). simpl.
    destruct IH as (qs & -> & Hqs); [intros y Hy; apply H; now right|].
    simpl. now exists (None :: qs).
Qed.

(** X11: a table that has the age column but no age in it, an empty table
    for one, stops the script in the sidebar: the smallest age is NaN and
    [int] of it raises [ValueError], whatever the user selects. *)
Theorem age_without_values_raises (ui : FilterSelection) (df_all : DataFrame)
    (Hopts : forall c, In c categorical_columns -> has_column df_all c = true ->
             exists vals, filter_options df_all c = Ok vals)
    (Hpresent : has_column df_all age_column = true)
    (Hnone : forall r, In r (rows df_all) ->
             cell_of (columns df_all) r age_column = None) :
  filter_engine ui df_all = Raise ValueError.
Proof.
  unfold filter_engine.
  destruct (categorical_loop_total ui df_all categorical_columns Hopts df_all)
    as [v Hv].
  rewrite Hv, Hpresent. simpl. unfold age_bounds.
  destruct (numeric_series_all_missing (column df_all age_column))
    as (qs & Hqs & Hnil).
  { intros x Hx. apply column_In in Hx as (r & Hr & <-). now apply Hnone. }
  rewrite Hqs. simpl. unfold series_min. now rewrite Hnil.
Qed.

Lemma age_without_values_raises_witness :
  filter_engine default_selection ageless_survey = Raise ValueError.
Proof.
  apply age_without_values_raises.
  - intros c [<-|[<-|[<-|[]]]]; try discriminate. intros _. now eexists.
  - reflexivity.
  - intros r [<-|[]]. reflexivity.
Defined.

(** ** Key metrics, further *)

Lemma yes_rows_le (df : DataFrame) : yes_rows df <= List.length (rows df).
Proof. unfold yes_rows. apply filter_length_le. Qed.

Lemma percent_range (y n : nat) :
  y <= n -> n <> 0 ->
  (0 <= inject_Z (Z.of_nat y) / inject_Z (Z.of_nat n) * 100)%Q
  /\ (inject_Z (Z.of_nat y) / inject_Z (Z.of_nat n) * 100 <= 100)%Q.
Proof.
  intros Hle Hn.
  assert (Hy : (0 <= Z.of_nat y <= Z.of_nat n)%Z) by lia.
  assert (Hpos : (0 < Z.of_nat n)%Z) by lia.
  destruct (Z.of_nat n) as [|p|p]; try lia.
  unfold Qle, Qdiv, Qmult, Qinv, inject_Z. simpl. split; nia.
Qed.

(** X12: the medical-insurance percentage is undefined (NaN) exactly on a
    view without rows, and otherwise lies between 0 and 100. *)
Theorem insurance_pct_range (df_view : DataFrame) :
  (insurance_pct df_view = None <-> rows df_view = [])
  /\ forall pct, insurance_pct df_view = Some pct ->
       (0 <= pct)%Q /\ (pct <= 100)%Q.
Proof.
  split.
  - split; intros H.
    + destruct (rows df_view) eqn:E; [reflexivity|].
      rewrite insurance_pct_value in H by (rewrite E; discriminate).
      discriminate.
    + now apply insurance_pct_empty.
  - intros pct H.
    destruct (rows df_view) eqn:E.
    + apply insurance_pct_empty in E as [E _]. congruence.
    + rewrite insurance_pct_value in H by (rewrite E; discriminate).
      injection H as <-. apply percent_range.
      * apply yes_rows_le.
      * rewrite E. discriminate.
Qed.

Lemma insurance_pct_range_witness :
  exists pct,
    insurance_pct insured = Some pct /\ (0 <= pct)%Q /\ (pct <= 100)%Q.
Proof.
  eexists. split; [reflexivity|].
  exact (proj2 (insurance_pct_range insured) _ eq_refl).
Defined.

Lemma max_bounds (f : scalar -> nat) (l : list scalar) (v : scalar) :
  In v l -> f v <= fold_right Nat.max 0 (map f l).
Proof.
  induction l as [|x l IH]; simpl; [tauto|].
  intros [->|H]; [lia|]. apply IH in H. lia.
Qed.

Lemma occurrences_bound (v : scalar) (l : list scalar) :
  occurrences v l
  <= fold_right Nat.max 0 (map (fun w => occurrences w l) l).
Proof.
  destruct (filter (scalar_eqb v) l) as [|w ws] eqn:E.
  - unfold occurrences. rewrite E. simpl. lia.
  - assert (Hw : In w (filter (scalar_eqb v) l)) by (rewrite E; now left).
    apply filter_In in Hw as [Hw Evw].
    rewrite (occurrences_eqb v w l Evw).
    apply (max_bounds (fun w => occurrences w l) l w Hw).
Qed.

Lemma series_mode_In (s : list cell) (m : scalar) :
  In m (series_mode s) ->
  In (Some m) s
  /\ forall v, occurrences v (dropna s) <= occurrences m (dropna s).
Proof.
  unfold series_mode. intros H.
  assert (Hm : In m (filter
            (fun v => occurrences v (dropna s)
                      =? fold_right Nat.max 0
                           (map (fun v => occurrences v (dropna s)) (dropna s)))%nat
            (unique (dropna s)))).
  { destruct (py_sorted _) as [sorted|e] eqn:Hs; [|assumption].
    unfold py_sorted in Hs. destruct (_ || _); [|discriminate].
    injection Hs as <-. exact (proj1 (insertion_sort_In _ _) H). }
  apply filter_In in Hm as [Hin Hbest]. apply Nat.eqb_eq in Hbest.
  split.
  - now apply dropna_In, unique_In.
  - intros v. rewrite Hbest. apply occurrences_bound.
Qed.

(** X13: on a view with rows, a most-common-employment metric that is
    shown is a value of the employment-status column of the view, and no
    value occurs in that column more often. *)
Theorem most_common_employment_is_most_common
    (df_view : DataFrame) (mode : scalar)
    (Hrows : rows df_view <> [])
    (Hmode : most_common_employment df_view = Ok mode) :
  In (Some mode) (column df_view employment_column)
  /\ forall v,
       occurrences v (dropna (column df_view employment_column))
       <= occurrences mode (dropna (column df_view employment_column)).
Proof.
  unfold most_common_employment in Hmode.
  rewrite column_nonempty in Hmode by assumption. simpl in Hmode.
  apply series_mode_In.
  destruct (series_mode _) as [|m ms]; [discriminate|].
  injection Hmode as <-. now left.
Qed.

Lemma most_common_employment_is_most_common_witness :
  most_common_employment tied_view = Ok (SStr "Full-time")
  /\ occurrences (SStr "Part-time") (dropna (column tied_view employment_column))
     <= occurrences (SStr "Full-time")
          (dropna (column tied_view employment_column)).
Proof.
  split; [reflexivity|].
  apply (most_common_employment_is_most_common tied_view (SStr "Full-time"));
    [discriminate|reflexivity].
Defined.

(** X14: after the filters the most-common-employment metric cannot
    raise: on a view the engine produced from a table that has the column,
    it is "N/A" when the view is empty and otherwise an employment status
    that occurs in the view and was among the selected ones. *)
Theorem filtered_view_employment_metric
    (ui : FilterSelection) (df_all df_view : DataFrame)
    (Hrun : filter_engine ui df_all = Ok df_view)
    (Hcol : has_column df_all employment_column = true) :
  exists mode,
    most_common_employment df_view = Ok mode
    /\ (rows df_view = [] -> mode = SStr "N/A")
    /\ (rows df_view <> [] ->
        In (Some mode) (column df_view employment_column)
        /\ exists vals,
             filter_options df_all employment_column = Ok vals
             /\ existsb (scalar_eqb mode)
                  (multiselect ui (employment_column ++ " filter") vals) = true).
Proof.
  destruct (filtered_view_employment_ok ui df_all df_view Hrun Hcol)
    as (_ & mode & Hmode).
  exists mode. split; [assumption|]. split.
  - intros Hempty. unfold most_common_employment in Hmode.
    rewrite (column_empty _ _ Hempty) in Hmode. simpl in Hmode. congruence.
  - intros Hrows.
    assert (Hin : In (Some mode) (column df_view employment_column)).
    { unfold most_common_employment in Hmode.
      rewrite column_nonempty in Hmode by assumption. simpl in Hmode.
      apply series_mode_In.
      destruct (series_mode _) as [|m ms]; [discriminate|].
      injection Hmode as <-. now left. }
    split; [assumption|].
    destruct (filter_engine_shape _ _ _ Hrun) as (Hcols & _).
    destruct (filter_engine_categorical ui df_all df_view employment_column
                Hrun) as (vals & Hvals & Hsel); [simpl; auto|assumption|].
    exists vals. split; [assumption|].
    apply column_In in Hin as (r & Hr & Hcell).
    specialize (Hsel r Hr). rewrite <- Hcols, Hcell in Hsel. exact Hsel.
Qed.

Lemma filtered_view_employment_metric_witness :
  exists df_view mode,
    filter_engine default_selection survey = Ok df_view
    /\ most_common_employment df_view = Ok mode.
Proof.
  eexists.
  destruct (filtered_view_employment_metric default_selection survey _
              eq_refl eq_refl) as (mode & Hmode & _).
  exists mode. split; [reflexivity|exact Hmode].
Defined.

(** ** Visual analytics, further *)

(** X15: when the chart block completes, the charts it retains are, in
    the fixed order pie, deliveries, age, income, expenses, exactly those
    whose guard columns are all present in the view. *)
Theorem chart_builder_files (df_view : DataFrame) (charts : list chart)
    (Hcharts : chart_builder df_view = Ok charts) :
  map fst charts = filter (chart_guard df_view) chart_files.
Proof.
  assert (G1 : chart_guard df_view "pie.png"
               = has_column df_view employment_column) by reflexivity.
  assert (G2 : chart_guard df_view "deliveries.png"
               = has_column df_view company_column
                 && has_column df_view deliveries_column) by reflexivity.
  assert (G3 : chart_guard df_view "age.png"
               = has_column df_view age_column) by reflexivity.
  assert (G4 : chart_guard df_view "income.png"
               = has_column df_view income_column
                 && has_column df_view employment_column) by reflexivity.
  assert (G5 : chart_guard df_view "expenses.png"
               = has_column df_view "Fuel Expenses (EGP)"
                 && has_column df_view company_column) by reflexivity.
  unfold chart_files. cbn [filter]. rewrite G1, G2, G3, G4, G5.
  clear G1 G2 G3 G4 G5. unfold chart_builder in Hcharts.
  destruct (has_column df_view "Fuel Expenses (EGP)"
            && has_column df_view company_column) eqn:E5;
    [destruct (groupby_mean df_view company_column expense_columns);
     simpl in Hcharts; [|discriminate]|];
    injection Hcharts as <-;
    destruct (has_column df_view employment_column),
      (has_column df_view company_column && has_column df_view deliveries_column),
      (has_column df_view age_column),
      (has_column df_view income_column); reflexivity.
Qed.

Lemma chart_builder_files_witness :
  exists charts,
    chart_builder expense_view = Ok charts
    /\ map fst charts = ["expenses.png"].
Proof.
  eexists. split; [reflexivity|].
  exact (chart_builder_files expense_view _ eq_refl).
Defined.

Lemma mapM_total {A B : Type} (f : A -> result B) (l : list A) :
  (forall x, In x l -> exists y, f x = Ok y) -> exists ys, mapM f l = Ok ys.
Proof.
  induction l as [|x l IH]; intros H; simpl; [now eexists|].
  destruct (H x (or_introl eq_refl)) as [y Hy]. rewrite Hy. simpl.
  destruct IH as [ys Hys]; [intros z Hz; apply H; now right|].
  rewrite Hys. simpl. now eexists.
Qed.

Lemma mapM_length {A B : Type} (f : A -> result B) (l : list A) (ys : list B) :
  mapM f l = Ok ys -> List.length ys = List.length l.
Proof.
  intros H. apply mapM_Forall2 in H.
  induction H; simpl; congruence.
Qed.

Lemma groupby_select_present (df : DataFrame) (cols : list string) :
  Forall (fun c => has_column df c = true) cols -> groupby_select df cols = Ok tt.
Proof.
  intros H. unfold groupby_select.
  replace (filter (fun c => negb (has_column df c)) cols) with (@nil string);
    [reflexivity|].
  symmetry. induction H as [|c cols Hc _ IH]; simpl; [reflexivity|].
  now rewrite Hc.
Qed.

Lemma numeric_series_total (s : list cell) :
  (forall x t, In x s -> x <> Some (SStr t)) ->
  exists qs, numeric_series s = Ok qs.
Proof.
  intros H. apply mapM_total. intros x Hx.
  destruct x as [[t|q]|]; simpl; try (now eexists).
  now destruct (H _ t Hx).
Qed.

Lemma groupby_mean_total (df : DataFrame) (key : string) (cols : list string) :
  Forall (fun c => has_column df c = true) cols ->
  (forall c r s, In c cols -> In r (rows df) ->
     cell_of (columns df) r c <> Some (SStr s)) ->
  exists g, groupby_mean df key cols = Ok g.
Proof.
  intros Hcols Hnum. unfold groupby_mean.
  rewrite (groupby_select_present _ _ Hcols). cbn [bind].
  match goal with
  | |- context [bind (mapM ?f ?l) _] =>
      destruct (mapM_total f l) as [means Hmeans]
  end.
  - intros k _.
    match goal with
    | |- context [bind (mapM ?g cols) _] =>
        destruct (mapM_total g cols) as [ms Hms]
    end.
    + intros c Hc. unfold series_mean.
      match goal with
      | |- context [numeric_series ?s] =>
          destruct (numeric_series_total s) as [qs Hqs]
      end.
      * intros x t Hx. apply in_map_iff in Hx as (r & <- & Hr).
        apply filter_In in Hr as [Hr _]. now apply Hnum.
      * rewrite Hqs. cbn [bind]. now eexists.
    + rewrite Hms. cbn [bind]. now eexists.
  - rewrite Hmeans. cbn [bind]. now eexists.
Qed.

(** X16: the expense chart is built once all four expense columns are
    there and hold no text: with the company column, the four expense
    columns and numbers or blanks in them, the chart block completes and
    retains the expense chart, last. *)
Theorem chart_builder_with_expenses (df_view : DataFrame)
    (Hcompany : has_column df_view company_column = true)
    (Hcols : Forall (fun c => has_column df_view c = true) expense_columns)
    (Hnum : forall c r s, In c expense_columns -> In r (rows df_view) ->
            cell_of (columns df_view) r c <> Some (SStr s)) :
  exists charts fig,
    chart_builder df_view = Ok (charts ++ [("expenses.png", fig)]).
Proof.
  destruct (groupby_mean_total df_view company_column expense_columns
              Hcols Hnum) as [df_exp Hexp].
  assert (Hfuel : has_column df_view "Fuel Expenses (EGP)" = true)
    by now inversion Hcols.
  unfold chart_builder. rewrite Hfuel, Hcompany, Hexp. cbn [andb bind].
  now do 2 eexists.
Qed.

Lemma chart_builder_with_expenses_witness :
  exists charts fig,
    chart_builder expense_view = Ok (charts ++ [("expenses.png", fig)]).
Proof.
  apply chart_builder_with_expenses.
  - reflexivity.
  - repeat constructor.
  - intros c r s [<-|[<-|[<-|[<-|[]]]]] [<-|[<-|[<-|[<-|[]]]]] E;
      vm_compute in E; discriminate E.
Defined.

Lemma reindex_from_In (k : nat) (rs : list row) (r : row) :
  In r (reindex_from k rs) ->
  exists r0, In r0 rs /\ row_cells r = row_cells r0.
Proof.
  revert k; induction rs as [|r1 rs IH]; intros k; simpl; [tauto|].
  intros [<-|H].
  - exists r1. auto.
  - apply IH in H as (r0 & H0 & E). exists r0. auto.
Qed.

Lemma Forall2_In_right {A B : Type} (R : A -> B -> Prop)
    (l : list A) (ys : list B) (y : B) :
  Forall2 R l ys -> In y ys -> exists x, In x l /\ R x y.
Proof.
  induction 1 as [|x y' l ys Hxy _ IH]; [intros []|].
  intros [<-|Hy].
  - exists x. split; [now left|assumption].
  - destruct (IH Hy) as (x' & Hx' & HR). exists x'. split; [now right|assumption].
Qed.

(** The table of group means: the key first, then the selected columns;
    one row per distinct non-missing key, and the key in its first cell. *)
Lemma groupby_mean_shape (df : DataFrame) (key : string) (cols : list string)
    (g : DataFrame) :
  groupby_mean df key cols = Ok g ->
  columns g = key :: cols
  /\ List.length (rows g) = List.length (unique (dropna (column df key)))
  /\ forall r, In r (rows g) ->
       exists k ms, row_cells r = Some k :: ms
                    /\ In (Some k) (column df key).
Proof.
  unfold groupby_mean.
  destruct (groupby_select df cols); cbn [bind]; [|discriminate].
  match goal with
  | |- context [bind (mapM ?f ?l) _] =>
      destruct (mapM f l) as [means|] eqn:Hmeans
  end; cbn [bind]; [|discriminate].
  intros [= <-]. cbn [columns rows]. split; [reflexivity|]. split.
  - rewrite reindex_from_length, (mapM_length _ _ _ Hmeans).
    apply Permutation_length, insertion_sort_perm.
  - intros r Hr. apply reindex_from_In in Hr as (r0 & Hr0 & ->).
    apply mapM_Forall2 in Hmeans.
    destruct (Forall2_In_right _ _ _ _ Hmeans Hr0) as (k & Hk & Hrow).
    cbv beta in Hrow.
    match type of Hrow with
    | bind ?m _ = _ => destruct m as [ms|]; cbn [bind] in Hrow; [|discriminate]
    end.
    injection Hrow as <-. exists k, ms. split; [reflexivity|].
    apply insertion_sort_In, unique_In in Hk. now apply dropna_In.
Qed.

Lemma flat_map_length_const {A B : Type} (f : A -> list B) (l : list A)
    (n : nat) :
  (forall x, List.length (f x) = n) ->
  List.length (flat_map f l) = List.length l * n.
Proof.
  intros H. induction l as [|x l IH]; simpl; [reflexivity|].
  now rewrite length_app, H, IH.
Qed.

(** What [melt] returns: the three columns of the long form, a row per
    value column and row of the wide table, each holding the key, the name
    of the value column and the value. *)
Lemma melt_shape (df : DataFrame) (id_var var_name value_name : string) :
  let long := melt df id_var var_name value_name in
  let value_vars := filter (fun c => negb (c =? id_var)) (columns df) in
  columns long = [id_var; var_name; value_name]
  /\ List.length (rows long) = List.length value_vars * List.length (rows df)
  /\ map row_index (rows long) = seq 0 (List.length (rows long))
  /\ forall r, In r (rows long) ->
       exists c r0, In c value_vars /\ In r0 (rows df)
         /\ row_cells r = [cell_of (columns df) r0 id_var; Some (SStr c);
                           cell_of (columns df) r0 c].
Proof.
  unfold melt. cbn [columns rows]. split; [reflexivity|].
  rewrite reindex_from_length, reindex_from_index. split; [|split].
  - apply flat_map_length_const. intros c. apply length_map.
  - reflexivity.
  - intros r Hr. apply reindex_from_In in Hr as (r1 & Hr1 & ->).
    apply in_flat_map in Hr1 as (c & Hc & Hr1).
    apply in_map_iff in Hr1 as (r0 & <- & Hr0).
    exists c, r0. repeat split; assumption.
Qed.

(** X17: the data of the expense chart is in long form: the columns
    Company, Expense Type and Avg Expense, four rows for each company of
    the view, indexed from 0, each naming a company of the view and one of
    the four expense columns. *)
Theorem expense_chart_long_form
    (df_view : DataFrame) (charts : list chart) (fig : figure)
    (Hcharts : chart_builder df_view = Ok charts)
    (Hin : In ("expenses.png", fig) charts) :
  exists data,
    fig = px_bar data company_column "Avg Expense" (Some "Expense Type")
                 "stack" "Average Expenses by Company"
    /\ columns data = ["Company"; "Expense Type"; "Avg Expense"]
    /\ List.length (rows data)
       = 4 * List.length (unique (dropna (column df_view company_column)))
    /\ map row_index (rows data) = seq 0 (List.length (rows data))
    /\ forall r, In r (rows data) ->
         exists k c m,
           row_cells r = [Some k; Some (SStr c); m]
           /\ In c expense_columns
           /\ In (Some k) (column df_view company_column).
Proof.
  unfold chart_builder in Hcharts.
  destruct (has_column df_view "Fuel Expenses (EGP)"
            && has_column df_view company_column).
  - destruct (groupby_mean df_view company_column expense_columns)
      as [g|] eqn:Hg; cbn [bind] in Hcharts; [|discriminate].
    injection Hcharts as <-.
    apply in_app_or in Hin as [Hin|Hin].
    + exfalso.
      destruct (has_column df_view employment_column),
        (has_column df_view company_column && has_column df_view deliveries_column),
        (has_column df_view age_column),
        (has_column df_view income_column);
        simpl in Hin; intuition discriminate.
    + destruct Hin as [Hin|[]]. injection Hin as <-.
      apply groupby_mean_shape in Hg as (Hcols & Hlen & Hkeys).
      destruct (melt_shape g company_column "Expense Type" "Avg Expense")
        as (Mcols & Mlen & Mindex & Mrows).
      assert (Hvars : filter (fun c => negb (c =? company_column)) (columns g)
                      = expense_columns) by (rewrite Hcols; reflexivity).
      rewrite Hvars in Mlen, Mrows.
      eexists. split; [reflexivity|]. split; [exact Mcols|].
      split; [rewrite Mlen, Hlen; reflexivity|]. split; [exact Mindex|].
      intros r Hr. destruct (Mrows r Hr) as (c & r0 & Hc & Hr0 & Hcells).
      destruct (Hkeys r0 Hr0) as (k & ms & Hk & Hkin).
      exists k, c, (cell_of (columns g) r0 c).
      split; [|split; assumption].
      rewrite Hcells. f_equal. rewrite Hcols. unfold cell_of. simpl position.
      now rewrite Hk.
  - exfalso. injection Hcharts as <-.
    destruct (has_column df_view employment_column),
      (has_column df_view company_column && has_column df_view deliveries_column),
      (has_column df_view age_column),
      (has_column df_view income_column);
      simpl in Hin; intuition discriminate.
Qed.

Lemma expense_chart_long_form_witness :
  exists data,
    chart_builder expense_view
    = Ok [("expenses.png",
           px_bar data company_column "Avg Expense" (Some "Expense Type")
                  "stack" "Average Expenses by Company")]
    /\ List.length (rows data) = 8.
Proof.
  destruct (expense_chart_long_form expense_view _ _ eq_refl
              (or_introl eq_refl)) as (data & Hfig & _ & Hlen & _).
  exists data. split.
  - rewrite <- Hfig. reflexivity.
  - rewrite Hlen. reflexivity.
Defined.

(** ** PDF export, further *)

Lemma chart_images_all (tmpdir : string)
    (write_image : figure -> string -> result unit) (charts : list chart) :
  (forall fname fig, In (fname, fig) charts ->
     write_image fig (tmpdir ++ "/" ++ fname)%string = Ok tt) ->
  chart_images tmpdir write_image charts
  = Ok (flat_map (chart_block tmpdir) charts).
Proof.
  induction charts as [|[fname fig] rest IH]; intros H; [reflexivity|].
  cbn [chart_images flat_map].
  rewrite (H fname fig (or_introl eq_refl)). cbn [bind].
  rewrite IH; [reflexivity|]. intros f g Hin. apply H. now right.
Qed.

Lemma chart_images_first_error (tmpdir : string)
    (write_image : figure -> string -> result unit)
    (done rest : list chart) (fname : string) (fig : figure) (e : pyerr) :
  (forall f g, In (f, g) done ->
     write_image g (tmpdir ++ "/" ++ f)%string = Ok tt) ->
  write_image fig (tmpdir ++ "/" ++ fname)%string = Raise e ->
  chart_images tmpdir write_image (done ++ (fname, fig) :: rest) = Raise e.
Proof.
  intros Hdone Hbad.
  induction done as [|[f g] done IH]; cbn [app chart_images].
  - now rewrite Hbad.
  - rewrite (Hdone f g (or_introl eq_refl)). cbn [bind].
    rewrite IH; [reflexivity|]. intros f' g' Hin. apply Hdone. now right.
Qed.

(** X18: when every chart renders, the exported document is: the title,
    the timestamp, a spacer, the metric lines, a spacer, and then for each
    retained chart, in order, its picture at 400 by 250 from the temporary
    directory followed by a spacer; with no chart retained it ends after the
    second spacer. *)
Theorem export_flow_layout
    (now tmpdir : string) (write_image : figure -> string -> result unit)
    (df_view : DataFrame) (charts : list chart) (kpis : list flowable)
    (Hkpis : pdf_kpi_lines df_view = Ok kpis)
    (Himages : forall fname fig, In (fname, fig) charts ->
               write_image fig (tmpdir ++ "/" ++ fname)%string = Ok tt) :
  export_flow now tmpdir write_image df_view charts
  = Ok ([Paragraph "Vans Data Dashboard Snapshot" "Title";
         Paragraph now "Normal"; Spacer 1 12]
        ++ kpis ++ [Spacer 1 12] ++ flat_map (chart_block tmpdir) charts)
  /\ export_flow now tmpdir write_image df_view []
     = Ok ([Paragraph "Vans Data Dashboard Snapshot" "Title";
            Paragraph now "Normal"; Spacer 1 12] ++ kpis ++ [Spacer 1 12]).
Proof.
  unfold export_flow. rewrite Hkpis. cbn [bind].
  rewrite (chart_images_all tmpdir write_image charts Himages). cbn [bind].
  split; [reflexivity|]. simpl chart_images. cbn [bind].
  now rewrite app_nil_r.
Qed.

Lemma export_flow_layout_witness :
  export_flow "2026-11-04 09:30" "/tmp/export" (fun _ _ => Ok tt) insured
    [("age.png", px_histogram survey "Age (Years)" 10 "Age Distribution")]
  = Ok [Paragraph "Vans Data Dashboard Snapshot" "Title";
        Paragraph "2026-11-04 09:30" "Normal"; Spacer 1 12;
        Paragraph "% with Medical Insurance: 75.0%" "Normal"; Spacer 1 12;
        Image "/tmp/export/age.png" 400 250; Spacer 1 12].
Proof.
  exact (proj1 (export_flow_layout "2026-11-04 09:30" "/tmp/export"
                  (fun _ _ => Ok tt) insured
                  [("age.png",
                    px_histogram survey "Age (Years)" 10 "Age Distribution")]
                  _ eq_refl (fun _ _ _ => eq_refl))).
Defined.

(** X19: the export is all or nothing: when a chart fails to render, the
    export ends with that chart's exception, whatever rendered before it and
    whatever comes after, and no document is built. *)
Theorem export_flow_aborts_on_image
    (now tmpdir : string) (write_image : figure -> string -> result unit)
    (df_view : DataFrame) (kpis : list flowable)
    (done rest : list chart) (fname : string) (fig : figure) (e : pyerr)
    (Hkpis : pdf_kpi_lines df_view = Ok kpis)
    (Hdone : forall f g, In (f, g) done ->
             write_image g (tmpdir ++ "/" ++ f)%string = Ok tt)
    (Hbad : write_image fig (tmpdir ++ "/" ++ fname)%string = Raise e) :
  export_flow now tmpdir write_image df_view (done ++ (fname, fig) :: rest)
  = Raise e.
Proof.
  unfold export_flow. rewrite Hkpis. cbn [bind].
  now rewrite (chart_images_first_error tmpdir write_image done rest fname fig e
                 Hdone Hbad).
Qed.

Lemma export_flow_aborts_on_image_witness :
  export_flow "2026-11-04 09:30" "/tmp/export" no_histogram insured two_charts
  = Raise ValueError.
Proof.
  apply (export_flow_aborts_on_image "2026-11-04 09:30" "/tmp/export"
           no_histogram insured _
           [("pie.png",
             px_pie one_answer "Employment Status" "Employment Status Share")]
           [("income.png",
             px_box survey "Employment Status" "Age (Years)" "Income")]
           "age.png"
           (px_histogram survey "Age (Years)" 10 "Age Distribution")
           ValueError eq_refl).
  - intros f g [H|[]]. now injection H as <- <-.
  - reflexivity.
Defined.

(** ** Global filters and key metrics together *)



Lemma between_widen (lo hi lo' hi' : Z) (x : option Q) :
  (lo' <= lo)%Z -> (hi <= hi')%Z ->
  between lo hi x = true -> between lo' hi' x = true.
Proof.
  intros Hlo Hhi. destruct x as [q|]; simpl; [|discriminate].
  rewrite !andb_true_iff, !Qle_bool_iff. intros [H1 H2].
  rewrite Zle_Qle in Hlo, Hhi. split.
  - now apply Qle_trans with (inject_Z lo).
  - now apply Qle_trans with (inject_Z hi).
Qed.

(** X21: selecting more never shows less: if every option selected under
    one selection is selected under another, and the age range of the first
    lies inside that of the second, then every row of the first view is a
    row of the second. *)
Theorem filter_engine_monotone
    (ui ui' : FilterSelection) (df_all df_view df_view' : DataFrame)
    (Hrun : filter_engine ui df_all = Ok df_view)
    (Hrun' : filter_engine ui' df_all = Ok df_view')
    (Hsel : forall label vals v,
            existsb (scalar_eqb v) (multiselect ui label vals) = true ->
            existsb (scalar_eqb v) (multiselect ui' label vals) = true)
    (Hrange : forall lo hi,
              (fst (slider ui' lo hi) <= fst (slider ui lo hi))%Z
              /\ (snd (slider ui lo hi) <= snd (slider ui' lo hi))%Z) :
  incl (rows df_view) (rows df_view').
Proof.
  rewrite (filter_engine_rows _ _ _ Hrun), (filter_engine_rows _ _ _ Hrun').
  intros r Hr. apply filter_In in Hr as [Hr Hkeep]. apply filter_In.
  split; [assumption|]. unfold keeps in *.
  apply andb_true_iff in Hkeep as [Hcat Hage]. apply andb_true_iff. split.
  - rewrite forallb_forall in Hcat |- *. intros c Hc. specialize (Hcat c Hc).
    unfold passes_categorical in *.
    destruct (has_column df_all c); [|reflexivity].
    destruct (filter_options df_all c) as [vals|]; [|discriminate].
    unfold isin in *. destruct (cell_of (columns df_all) r c); [|discriminate].
    now apply Hsel.
  - unfold passes_age in *.
    destruct (has_column df_all age_column); [|reflexivity].
    destruct (age_bounds df_all) as [[lo hi]|]; [|discriminate].
    destruct (Hrange lo hi) as [Hlo Hhi].
    now apply (between_widen _ _ _ _ _ Hlo Hhi).
Qed.

Lemma filter_engine_monotone_witness :
  exists df_view df_view',
    filter_engine no_company survey = Ok df_view
    /\ filter_engine default_selection survey = Ok df_view'
    /\ incl (rows df_view) (rows df_view').
Proof.
  do 2 eexists. split; [reflexivity|]. split; [reflexivity|].
  apply (filter_engine_monotone no_company default_selection survey);
    try reflexivity.
  - intros label vals v. simpl.
    destruct (label =? "Company filter"); [discriminate|auto].
  - intros lo hi. simpl. lia.
Defined.

(** X22: the cards of the panel follow the columns: when the panel
    completes, its cards are, in the fixed order, exactly those whose source
    column is in the view. *)
Theorem metrics_panel_cards (df_view : DataFrame) (ms : list (string * cell))
    (Hpanel : metrics_panel df_view = Ok ms) :
  map fst ms
  = filter (fun card => has_column df_view (metric_source card)) metric_labels.
Proof.
  unfold metric_labels. cbn [filter].
  change (metric_source "Avg Deliveries/day") with deliveries_column.
  change (metric_source "% with Medical Insurance") with insurance_column.
  change (metric_source "Avg Net Income") with income_column.
  change (metric_source "Most Common Employment") with employment_column.
  unfold metrics_panel in Hpanel.
  destruct (has_column df_view deliveries_column);
    [destruct (avg_deliveries df_view); cbn [bind] in Hpanel; [|discriminate]|];
    (destruct (has_column df_view income_column);
     [destruct (avg_net_income df_view); cbn [bind] in Hpanel; [|discriminate]|]);
    (destruct (has_column df_view employment_column);
     [destruct (most_common_employment df_view);
      cbn [bind] in Hpanel; [|discriminate]|]);
    destruct (has_column df_view insurance_column);
    cbn [bind] in Hpanel; injection Hpanel as <-; reflexivity.
Qed.

Lemma metrics_panel_cards_witness :
  exists ms,
    metrics_panel survey = Ok ms
    /\ map fst ms = ["% with Medical Insurance"; "Most Common Employment"].
Proof.
  eexists. split; [reflexivity|].
  exact (metrics_panel_cards survey _ eq_refl).
Defined.

Lemma series_mean_total (s : list cell) :
  (forall x t, In x s -> x <> Some (SStr t)) ->
  exists m, series_mean s = Ok m.
Proof.
  intros H. unfold series_mean.
  destruct (numeric_series_total s H) as [qs Hqs].
  rewrite Hqs. cbn [bind]. now eexists.
Qed.

(** X23: after the filters the panel can only fail on text among the
    numbers: on a view the engine produced, if the deliveries and net-income
    columns hold no text, the key-metrics block completes. *)
Theorem filtered_view_metrics_complete
    (ui : FilterSelection) (df_all df_view : DataFrame)
    (Hrun : filter_engine ui df_all = Ok df_view)
    (Hnum : forall c r s, In c [deliveries_column; income_column] ->
            In r (rows df_view) ->
            cell_of (columns df_view) r c <> Some (SStr s)) :
  exists ms, metrics_panel df_view = Ok ms.
Proof.
  assert (Hmean : forall c, In c [deliveries_column; income_column] ->
            exists m, series_mean (column df_view c) = Ok m).
  { intros c Hc. apply series_mean_total. intros x t Hx.
    apply column_In in Hx as (r & Hr & <-). now apply Hnum. }
  destruct (Hmean deliveries_column) as [m1 H1]; [simpl; auto|].
  destruct (Hmean income_column) as [m3 H3]; [simpl; auto|].
  destruct (filter_engine_shape _ _ _ Hrun) as (Hcols & _).
  unfold metrics_panel, avg_deliveries, avg_net_income. rewrite H1, H3.
  cbn [bind].
  destruct (has_column df_view employment_column) eqn:He.
  - assert (He' : has_column df_all employment_column = true).
    { unfold has_column in *. now rewrite <- Hcols. }
    destruct (filtered_view_employment_ok ui df_all df_view Hrun He')
      as (_ & mode & Hmode).
    rewrite Hmode.
    destruct (has_column df_view deliveries_column),
      (has_column df_view income_column); cbn [bind]; now eexists.
  - destruct (has_column df_view deliveries_column),
      (has_column df_view income_column); cbn [bind]; now eexists.
Qed.

Lemma filtered_view_metrics_complete_witness :
  exists df_view ms,
    filter_engine default_selection survey = Ok df_view
    /\ metrics_panel df_view = Ok ms.
Proof.
  eexists.
  destruct (filtered_view_metrics_complete default_selection survey _ eq_refl)
    as [ms Hms].
  - intros c r s Hc [<-|[<-|[]]] E; destruct Hc as [<-|[<-|[]]];
      vm_compute in E; discriminate E.
  - exists ms. split; [reflexivity|exact Hms].
Defined.

(** ** The session *)

(** X24: a page is shown exactly when the gate is open (no password is
    configured, or the submitted password is the configured one), the chosen
    source has a workbook, and that workbook renders; the page is then the
    rendering of that workbook under the session's selection, whatever the
    preset and whether or not the pivot widget fails. *)
Theorem script_shows_page (s : Session) (page : Page) :
  (exists shown, script s = Shown shown page)
  <-> (env_password s = ""
       \/ (form_ok s = true /\ form_pwd s = env_password s))
      /\ exists xls,
           (if choice s =? "Use included file" then included s else uploaded s)
           = Some xls
           /\ render (widgets s) xls = Ok page.
Proof.
  unfold script, gate_closed, data_source. split.
  - intros [shown H].
    destruct (env_password s =? "") eqn:Ep; simpl in H.
    + apply String.eqb_eq in Ep. split; [now left|].
      destruct (choice s =? "Use included file");
        [destruct (included s) as [xls|]|destruct (uploaded s) as [xls|]];
        try discriminate; exists xls; (split; [reflexivity|]);
        destruct (render (widgets s) xls); try discriminate;
        now injection H as _ <-.
    + destruct (form_ok s); simpl in H; [|discriminate].
      destruct (form_pwd s =? env_password s) eqn:Ef; simpl in H;
        [|discriminate].
      apply String.eqb_eq in Ef. split; [now right|].
      destruct (choice s =? "Use included file");
        [destruct (included s) as [xls|]|destruct (uploaded s) as [xls|]];
        try discriminate; exists xls; (split; [reflexivity|]);
        destruct (render (widgets s) xls); try discriminate;
        now injection H as _ <-.
  - intros [Hgate (xls & Hsrc & Hrender)].
    assert (Hopen : negb (env_password s =? "")
                    && (negb (form_ok s)
                        || negb (form_pwd s =? env_password s)) = false).
    { destruct Hgate as [->|[-> ->]]; [reflexivity|].
      rewrite String.eqb_refl. simpl. apply andb_false_r. }
    rewrite Hopen.
    destruct (choice s =? "Use included file"); rewrite Hsrc, Hrender;
      now eexists.
Qed.

Lemma script_shows_page_witness :
  exists shown page,
    script visitor = Shown shown page
    /\ render default_selection sample_workbook = Ok page.
Proof.
  eexists. eexists. split; [reflexivity|].
  destruct (proj1 (script_shows_page visitor _) (ex_intro _ _ eq_refl))
    as (_ & xls & Hsrc & Hrender).
  injection Hsrc as <-. exact Hrender.
Defined.

(** ** Ties in the most common employment status *)

Lemma string_compare_refl (s : string) : String.compare s s = Eq.
Proof.
  induction s as [|c s IH]; simpl; [reflexivity|].
  unfold Ascii.compare. now rewrite N.compare_refl.
Qed.

Lemma string_compare_lt_trans (a b c : string) :
  String.compare a b = Lt -> String.compare b c = Lt -> String.compare a c = Lt.
Proof.
  revert b c; induction a as [|x a IH]; intros [|y b] [|z c]; simpl;
    try discriminate; try reflexivity.
  destruct (Ascii.compare x y) eqn:Exy; try discriminate;
    destruct (Ascii.compare y z) eqn:Eyz; try discriminate.
  - apply Ascii.compare_eq_iff in Exy, Eyz. subst.
    unfold Ascii.compare. rewrite N.compare_refl. apply IH.
  - apply Ascii.compare_eq_iff in Exy. subst. now rewrite Eyz.
  - apply Ascii.compare_eq_iff in Eyz. subst. now rewrite Exy.
  - unfold Ascii.compare in *. rewrite N.compare_lt_iff in *.
    assert (H : (N_of_ascii x < N_of_ascii z)%N) by lia.
    apply N.compare_lt_iff in H. now rewrite H.
Qed.

Lemma string_leb_refl (s : string) : String.leb s s = true.
Proof. unfold String.leb. now rewrite string_compare_refl. Qed.

Lemma string_leb_trans (a b c : string) :
  String.leb a b = true -> String.leb b c = true -> String.leb a c = true.
Proof.
  unfold String.leb.
  destruct (String.compare a b) eqn:Eab; try discriminate;
    destruct (String.compare b c) eqn:Ebc; try discriminate; intros _ _.
  - apply String.compare_eq_iff in Eab, Ebc. subst.
    now rewrite string_compare_refl.
  - apply String.compare_eq_iff in Eab. subst. now rewrite Ebc.
  - apply String.compare_eq_iff in Ebc. subst. now rewrite Eab.
  - now rewrite (string_compare_lt_trans a b c Eab Ebc).
Qed.

Lemma insert_sorted_head_least (x : string) (l : list scalar) :
  forallb is_str l = true -> head_least l ->
  head_least (insert_sorted (SStr x) l).
Proof.
  destruct l as [|h t]; simpl.
  - intros _ _ y [<-|[]]. apply string_leb_refl.
  - intros Htext Hleast. apply andb_prop in Htext as [Hh Ht].
    destruct h as [h|q]; [|discriminate]. simpl.
    destruct (String.leb x h) eqn:E; simpl.
    + intros y [<-|[<-|Hy]].
      * apply string_leb_refl.
      * exact E.
      * specialize (Hleast y (or_intror Hy)).
        rewrite forallb_forall in Ht. specialize (Ht y Hy).
        destruct y as [y|q]; [|discriminate]. simpl in *.
        now apply string_leb_trans with h.
    + intros y [<-|Hy]; [apply string_leb_refl|].
      apply insert_sorted_In in Hy as [->|Hy].
      * simpl. destruct (String.leb_total x h) as [H|H]; congruence.
      * apply Hleast. now right.
Qed.

Lemma insert_sorted_text (x : scalar) (l : list scalar) :
  is_str x = true -> forallb is_str l = true ->
  forallb is_str (insert_sorted x l) = true.
Proof.
  intros Hx Hl. apply forallb_forall. intros y Hy.
  apply insert_sorted_In in Hy as [->|Hy]; [assumption|].
  rewrite forallb_forall in Hl. now apply Hl.
Qed.

Lemma insertion_sort_head_least (l : list scalar) :
  forallb is_str l = true ->
  forallb is_str (insertion_sort l) = true /\ head_least (insertion_sort l).
Proof.
  induction l as [|x l IH]; simpl; [now split|].
  intros H. apply andb_prop in H as [Hx Hl].
  destruct (IH Hl) as [Htext Hleast]. split.
  - now apply insert_sorted_text.
  - destruct x as [x|q]; [|discriminate].
    now apply insert_sorted_head_least.
Qed.

Lemma unique_In_text (s : string) (l : list scalar) :
  In (SStr s) l -> In (SStr s) (unique l).
Proof.
  intros H. apply unique_covers, existsb_exists in H as (w & Hw & E).
  destruct w as [w|q]; [|discriminate]. simpl in E.
  apply String.eqb_eq in E. now subst.
Qed.

(** X25: when several employment statuses tie for the most answers in a
    column of text, the metric shows the one that comes first in
    alphabetical (code point) order. *)
Theorem most_common_employment_tie_break (df_view : DataFrame) (m : string)
    (Hrows : rows df_view <> [])
    (Htext : forall x, In x (column df_view employment_column) ->
             x = None \/ exists s, x = Some (SStr s))
    (Hmode : most_common_employment df_view = Ok (SStr m)) :
  forall s,
    In (Some (SStr s)) (column df_view employment_column) ->
    occurrences (SStr s) (dropna (column df_view employment_column))
    = occurrences (SStr m) (dropna (column df_view employment_column)) ->
    String.leb m s = true.
Proof.
  intros s Hs Htie.
  unfold most_common_employment in Hmode.
  rewrite column_nonempty in Hmode by assumption. simpl in Hmode.
  unfold series_mode in Hmode.
  set (vals := dropna (column df_view employment_column)) in *.
  set (best := fold_right Nat.max 0 (map (fun v => occurrences v vals) vals))
    in *.
  set (modes := filter (fun v => (occurrences v vals =? best)%nat)
                       (unique vals)) in *.
  assert (Hvals : forallb is_str vals = true).
  { apply forallb_forall. intros v Hv. apply dropna_In in Hv.
    destruct (Htext _ Hv) as [H|[t H]]; [discriminate|]. now injection H as ->. }
  assert (Hmodes : forallb is_str modes = true).
  { apply forallb_forall. intros v Hv. apply filter_In in Hv as [Hv _].
    apply unique_In in Hv. rewrite forallb_forall in Hvals. now apply Hvals. }
  unfold py_sorted in Hmode. rewrite Hmodes in Hmode. simpl in Hmode.
  destruct (insertion_sort_head_least modes Hmodes) as [_ Hleast].
  destruct (insertion_sort modes) as [|h rest] eqn:Hsort; [discriminate|].
  injection Hmode as ->.
  assert (Hm : In (SStr m) modes).
  { apply insertion_sort_In. rewrite Hsort. now left. }
  apply filter_In in Hm as [_ Hbest]. apply Nat.eqb_eq in Hbest.
  assert (Hin : In (SStr s) modes).
  { apply filter_In. split.
    - apply unique_In_text. now apply dropna_In.
    - apply Nat.eqb_eq. congruence. }
  apply (proj2 (insertion_sort_In _ _)) in Hin. rewrite Hsort in Hin.
  exact (Hleast _ Hin).
Qed.

Lemma most_common_employment_tie_break_witness :
  most_common_employment tied_view = Ok (SStr "Full-time")
  /\ String.leb "Full-time" "Part-time" = true.
Proof.
  split; [reflexivity|].
  apply (most_common_employment_tie_break tied_view "Full-time").
  - discriminate.
  - intros x [<-|[<-|[<-|[<-|[<-|[]]]]]]; right; eexists; reflexivity.
  - reflexivity.
  - simpl. auto.
  - reflexivity.
Defined.
